(** * A task-list model and its persistence adapter

    Shallow embedding of [src/models/todo-model.js] (class [TodoModel]),
    [src/services/storage-service.js] (class [StorageService]), the
    [MockStorage] double of [tests/todo-model.test.js] and the import
    handler of [src/components/todo-app.js].

    Conventions of the embedding:
    - a JavaScript string is the list of its UTF-16 code units;
    - the numbers the model handles (ids and the counter) are integers of
      [Z]: the embedding covers the range in which [n + 1] is exact
      (from -2^53 to below 2^53), and the theorems on runs of any length
      carry that range as a hypothesis ([increments_exact]);
    - a method of the model is a computation in a small state-and-trace
      monad: it transforms the object and records, in order, the calls it
      makes on the storage service and on the subscribed callbacks;
    - a subscribed callback is known by its identity only; what it does
      when called lies outside the model, and it is taken not to call
      back into the model. *)

From Stdlib Require Import ZArith NArith Ascii String.
From stdpp Require Import base decidable list sorting gmap.

Local Open Scope Z_scope.

(** ** JavaScript strings *)

Definition jsstring : Type := list N.

(** An ASCII literal as a JavaScript string. *)
Definition js (s : string) : jsstring :=
  map N_of_ascii (list_ascii_of_string s).

(** ECMAScript [WhiteSpace] and [LineTerminator] code points, the ones
    [String.prototype.trim] strips. *)
Definition is_white_space (c : N) : bool :=
  existsb (N.eqb c)
    [ 0x0009; 0x000A; 0x000B; 0x000C; 0x000D; 0x0020; 0x00A0; 0x1680;
      0x2000; 0x2001; 0x2002; 0x2003; 0x2004; 0x2005; 0x2006; 0x2007;
      0x2008; 0x2009; 0x200A; 0x2028; 0x2029; 0x202F; 0x205F; 0x3000;
      0xFEFF ]%N.

Fixpoint trimStart (s : jsstring) : jsstring :=
  match s with
  | c :: s' => if is_white_space c then trimStart s' else s
  | [] => []
  end.

Definition trimEnd (s : jsstring) : jsstring := rev (trimStart (rev s)).

Definition trim (s : jsstring) : jsstring := trimEnd (trimStart s).

(** Truthiness of a string: only the empty string is falsy. *)
Definition truthy (s : jsstring) : bool :=
  match s with [] => false | _ :: _ => true end.

(** [s === ''] *)
Definition is_empty (s : jsstring) : bool := negb (truthy s).

(** ** Tasks *)

Module Todo.
Record t : Type := mk {
  id : Z;
  text : jsstring;
  completed : bool;
  createdAt : jsstring
}.

Definition set_completed (c : bool) (x : t) : t :=
  mk (id x) (text x) c (createdAt x).

Definition set_text (s : jsstring) (x : t) : t :=
  mk (id x) s (completed x) (createdAt x).
End Todo.

(** ** The storage-service interface

    The model is handed an object with [save], [load], [remove] and
    [clear].  The application stores three things through it, each under
    its own key and each of its own type. *)

Inductive Key : Type := K_items | K_nextId | K_theme.

Definition key_name (k : Key) : jsstring :=
  match k with
  | K_items => js "items"
  | K_nextId => js "nextId"
  | K_theme => js "theme"
  end.

Definition Val (k : Key) : Type :=
  match k with
  | K_items => list Todo.t
  | K_nextId => Z
  | K_theme => jsstring
  end.

Class StorageOps (S : Type) : Type := {
  st_save : forall k : Key, Val k -> S -> S;
  st_load : forall k : Key, Val k -> S -> Val k;
  st_remove : Key -> S -> S;
  st_clear : S -> S
}.

(** A service whose writes take effect: what was saved under a key is
    what a later load of that key returns, and the other keys keep their
    content. *)
Class StorageLaws (S : Type) `{StorageOps S} : Prop := {
  load_save_same : forall (k : Key) (v d : Val k) (s : S),
    st_load k d (st_save k v s) = v;
  load_save_other : forall (k k' : Key) (v : Val k) (d : Val k') (s : S),
    k <> k' -> st_load k' d (st_save k v s) = st_load k' d s
}.

(** ** [MockStorage], the in-memory double used by the unit tests *)

Module MockStorage.
Record t : Type := mk {
  items : option (list Todo.t);
  nextId : option Z;
  theme : option jsstring
}.

(** [this.data = {}] *)
Definition empty : t := mk None None None.

(** [this.data[key]], [undefined] being [None] *)
Definition get (k : Key) (d : t) : option (Val k) :=
  match k with
  | K_items => items d
  | K_nextId => nextId d
  | K_theme => theme d
  end.

(** [this.data[key] = value] *)
Definition save (k : Key) : Val k -> t -> t :=
  match k with
  | K_items => fun v d => mk (Some v) (nextId d) (theme d)
  | K_nextId => fun v d => mk (items d) (Some v) (theme d)
  | K_theme => fun v d => mk (items d) (nextId d) (Some v)
  end.

(** [this.data[key] !== undefined ? this.data[key] : defaultValue] *)
Definition load (k : Key) (defaultValue : Val k) (d : t) : Val k :=
  match get k d with
  | Some v => v
  | None => defaultValue
  end.

(** [delete this.data[key]] *)
Definition remove (k : Key) (d : t) : t :=
  match k with
  | K_items => mk None (nextId d) (theme d)
  | K_nextId => mk (items d) None (theme d)
  | K_theme => mk (items d) (nextId d) None
  end.

(** [this.data = {}] *)
Definition clear (_ : t) : t := empty.
End MockStorage.

#[export] Instance MockStorage_ops : StorageOps MockStorage.t := {
  st_save := MockStorage.save;
  st_load := MockStorage.load;
  st_remove := MockStorage.remove;
  st_clear := MockStorage.clear
}.


(** ** Observable effects of the model

    A subscribed callback is a zero-argument function; the model only
    ever calls it, so a callback is represented by its identity. *)

Definition Listener : Type := nat.

Inductive Event : Type :=
| EvLoad (k : Key)                 (* storage.load(k, _) *)
| EvSave (k : Key) (v : Val k)     (* storage.save(k, v) *)
| EvRemove (k : Key)               (* storage.remove(k) *)
| EvClear                          (* storage.clear() *)
| EvCall (l : Listener).           (* listener() *)

Definition is_load (e : Event) : bool :=
  match e with EvLoad _ => true | _ => false end.

(** The callbacks called along a trace, in order. *)
Fixpoint calls (tr : list Event) : list Listener :=
  match tr with
  | [] => []
  | EvCall l :: tr' => l :: calls tr'
  | _ :: tr' => calls tr'
  end.

(** The writes to the storage service along a trace, in order. *)
Fixpoint saves (tr : list Event) : list Event :=
  match tr with
  | [] => []
  | EvSave k v :: tr' => EvSave k v :: saves tr'
  | _ :: tr' => saves tr'
  end.

(** ** The class [TodoModel] *)

Section TodoModel.
Context {S : Type} `{StorageOps S}.

Record TodoModel : Type := mkTodoModel {
  storage : S;
  todos : list Todo.t;
  listeners : list Listener;
  nextId : Z
}.

(** A method body: from the object before the call to the result, the
    object after the call and the calls made meanwhile. *)
Definition M (A : Type) : Type := TodoModel -> A * TodoModel * list Event.

Definition ret {A : Type} (a : A) : M A := fun m => (a, m, []).

Definition bind {A B : Type} (c : M A) (f : A -> M B) : M B :=
  fun m =>
    let '(a, m1, tr1) := c m in
    let '(b, m2, tr2) := f a m1 in
    (b, m2, tr1 ++ tr2).

Notation "x <- c ;; k" := (bind c (fun x => k))
  (at level 100, c at next level, right associativity).
Notation "c ;; k" := (bind c (fun _ => k))
  (at level 100, right associativity).

(** Reading a field of [this]. *)
Definition this {A : Type} (field : TodoModel -> A) : M A :=
  fun m => (field m, m, []).

(** [this.todos = v] and [this.nextId = v] *)
Definition set_todos (v : list Todo.t) : M unit :=
  fun m => (tt, mkTodoModel (storage m) v (listeners m) (nextId m), []).

Definition set_nextId (v : Z) : M unit :=
  fun m => (tt, mkTodoModel (storage m) (todos m) (listeners m) v, []).

Definition set_listeners (v : list Listener) : M unit :=
  fun m => (tt, mkTodoModel (storage m) (todos m) v (nextId m), []).

(** [this.storage.save(k, v)] *)
Definition storage_save (k : Key) (v : Val k) : M unit :=
  fun m =>
    (tt, mkTodoModel (st_save k v (storage m)) (todos m) (listeners m) (nextId m),
     [EvSave k v]).

(** [listener()] *)
Definition call (l : Listener) : M unit := fun m => (tt, m, [EvCall l]).

(** [array.forEach(body)] *)
Fixpoint forEach {A : Type} (l : list A) (body : A -> M unit) : M unit :=
  match l with
  | [] => ret tt
  | x :: l' => body x ;; forEach l' body
  end.

(** [constructor(storageService)]: the new object and the calls made on
    the service while building it. *)
Definition constructor (storageService : S) : TodoModel * list Event :=
  let todos0 := st_load K_items [] storageService in
  let nextId0 := st_load K_nextId 1 storageService in
  (mkTodoModel storageService todos0 [] nextId0,
   [EvLoad K_items; EvLoad K_nextId]).

(** [subscribe(listener) { this.listeners.push(listener); }] *)
Definition subscribe (listener : Listener) : M unit :=
  ls <- this listeners ;;
  set_listeners (ls ++ [listener]).

(** [notify() { this.listeners.forEach(listener => listener()); }] *)
Definition notify : M unit :=
  ls <- this listeners ;;
  forEach ls call.

(** [save()]: the collection, then the counter. *)
Definition save : M unit :=
  ts <- this todos ;;
  storage_save K_items ts ;;
  n <- this nextId ;;
  storage_save K_nextId n.

(** [this.nextId++]: the value before the increment. *)
Definition post_increment_nextId : M Z :=
  n <- this nextId ;;
  set_nextId (n + 1) ;;
  ret n.

(** [addTodo(text)].  [now] is what [new Date().toISOString()] returns
    during the call. *)
Definition addTodo (text : jsstring) (now : jsstring) : M unit :=
  if negb (truthy text) || is_empty (trim text) then ret tt
  else
    n <- post_increment_nextId ;;
    let todo := Todo.mk n (trim text) false now in
    ts <- this todos ;;
    set_todos (ts ++ [todo]) ;;
    save ;;
    notify.

(** [t => t.id === id] *)
Definition has_id (id : Z) (t : Todo.t) : bool := Todo.id t =? id.

(** In-place update of the object that [array.find(p)] returns: the
    first element satisfying [p] is replaced by its image, the array is
    otherwise untouched. *)
Fixpoint update_found (p : Todo.t -> bool) (f : Todo.t -> Todo.t)
    (l : list Todo.t) : list Todo.t :=
  match l with
  | [] => []
  | t :: l' => if p t then f t :: l' else t :: update_found p f l'
  end.

(** [toggleComplete(id)] *)
Definition toggleComplete (id : Z) : M unit :=
  ts <- this todos ;;
  match List.find (has_id id) ts with
  | Some todo =>
      set_todos
        (update_found (has_id id)
           (Todo.set_completed (negb (Todo.completed todo))) ts) ;;
      save ;;
      notify
  | None => ret tt
  end.

(** [deleteTodo(id)] *)
Definition deleteTodo (id : Z) : M unit :=
  ts <- this todos ;;
  set_todos (List.filter (fun t => negb (has_id id t)) ts) ;;
  save ;;
  notify.

(** [updateTodo(id, newText)] *)
Definition updateTodo (id : Z) (newText : jsstring) : M unit :=
  ts <- this todos ;;
  match List.find (has_id id) ts with
  | Some todo =>
      if truthy newText && negb (is_empty (trim newText)) then
        set_todos
          (update_found (has_id id) (Todo.set_text (trim newText)) ts) ;;
        save ;;
        notify
      else ret tt
  | None => ret tt
  end.

(** [clearCompleted()] *)
Definition clearCompleted : M unit :=
  ts <- this todos ;;
  set_todos (List.filter (fun t => negb (Todo.completed t)) ts) ;;
  save ;;
  notify.

(** [clearAll()] *)
Definition clearAll : M unit :=
  set_todos [] ;;
  save ;;
  notify.

(** [get activeCount()] and [get completedCount()] *)
Definition activeCount (m : TodoModel) : nat :=
  length (List.filter (fun t => negb (Todo.completed t)) (todos m)).

Definition completedCount (m : TodoModel) : nat :=
  length (List.filter (fun t => Todo.completed t) (todos m)).

End TodoModel.

Arguments TodoModel S : clear implicits.
Arguments M S A : clear implicits.

(** ** Calls on a model, and runs of calls *)

Inductive Op : Type :=
| OpSubscribe (listener : Listener)
| OpAddTodo (text : jsstring) (now : jsstring)
| OpToggleComplete (id : Z)
| OpDeleteTodo (id : Z)
| OpUpdateTodo (id : Z) (newText : jsstring)
| OpClearCompleted
| OpClearAll.

(** The calls the specification counts as mutating. *)
Definition mutating (op : Op) : bool :=
  match op with OpSubscribe _ => false | _ => true end.

Section Runs.
Context {S : Type} `{StorageOps S}.

Definition exec (op : Op) : M S unit :=
  match op with
  | OpSubscribe l => subscribe l
  | OpAddTodo text now => addTodo text now
  | OpToggleComplete id => toggleComplete id
  | OpDeleteTodo id => deleteTodo id
  | OpUpdateTodo id newText => updateTodo id newText
  | OpClearCompleted => clearCompleted
  | OpClearAll => clearAll
  end.

(** The object after a call, and the calls it made. *)
Definition after {A : Type} (c : M S A) (m : TodoModel S) : TodoModel S :=
  snd (fst (c m)).

Definition trace_of {A : Type} (c : M S A) (m : TodoModel S) : list Event :=
  snd (c m).

(** The ids a call issued: those of the tasks that [addTodo] put behind
    the tasks already there. *)
Definition issued (op : Op) (m m' : TodoModel S) : list Z :=
  match op with
  | OpAddTodo _ _ => map Todo.id (drop (length (todos m)) (todos m'))
  | _ => []
  end.

(** A run of calls: the final object, the whole trace, and the ids issued
    along the way, oldest first. *)
Fixpoint run (ops : list Op) (m : TodoModel S)
    : TodoModel S * list Event * list Z :=
  match ops with
  | [] => (m, [], [])
  | op :: ops' =>
      let m1 := after (exec op) m in
      let '(m2, tr2, ids2) := run ops' m1 in
      (m2, trace_of (exec op) m ++ tr2, issued op m m1 ++ ids2)
  end.

(** The object once [ts] has been assigned to [this.todos] and [save()]
    has run. *)
Definition saved_with (ts : list Todo.t) (m : TodoModel S) : TodoModel S :=
  mkTodoModel
    (st_save K_nextId (nextId m) (st_save K_items ts (storage m)))
    ts (listeners m) (nextId m).

(** The service returns the collection and the counter of the model. *)
Definition in_sync (m : TodoModel S) : Prop :=
  st_load K_items [] (storage m) = todos m /\
  st_load K_nextId 1 (storage m) = nextId m.

Definition final (ops : list Op) (m : TodoModel S) : TodoModel S :=
  fst (fst (run ops m)).

Definition issued_ids (ops : list Op) (m : TodoModel S) : list Z :=
  snd (run ops m).

(** JavaScript numbers are doubles: [n + 1] is the integer successor of
    an integer [n] exactly when [-2^53 <= n < 2^53]; at [2^53] the sum
    is rounded back to [2^53].  A model whose counter is in that range
    and at least [k] steps below [2^53] makes its next [k] increments
    as [post_increment_nextId] has them. *)
Definition increments_exact (m : TodoModel S) (k : nat) : Prop :=
  - 2 ^ 53 <= nextId m /\ nextId m + Z.of_nat k <= 2 ^ 53.

End Runs.

(** ** The class [StorageService]

    [JSON.parse] belongs to the platform: it is a parameter, [None]
    standing for a thrown [SyntaxError].  The store behind the service
    ([localStorage]) maps strings to strings. *)

Module StorageService.
Section Load.
Context {V : Type}.
Variable JSON_parse : jsstring -> option V.

Record t : Type := mk {
  prefix : jsstring;
  storage : gmap jsstring jsstring
}.

(** [storage.getItem(k)]: [null] is [None]. *)
Definition getItem (k : jsstring) (st : gmap jsstring jsstring)
    : option jsstring := st !! k.

(** Lines written with [console.error]. *)
Inductive Console : Type := FailedToLoad (key : jsstring).

(** [load(key, defaultValue)]: the value returned and what was logged.
    A caller that omits [defaultValue] passes [null]. *)
Definition load (key : jsstring) (defaultValue : V) (svc : t)
    : V * list Console :=
  match getItem (prefix svc ++ key) (storage svc) with
  | Some item =>
      if truthy item then
        match JSON_parse item with
        | Some v => (v, [])
        | None => (defaultValue, [FailedToLoad key])
        end
      else (defaultValue, [])
  | None => (defaultValue, [])
  end.

End Load.
End StorageService.

(** ** The import handler of [TodoApp] *)

(** The members an instance of [TodoModel] has: the fields its
    constructor assigns and what its class body declares. *)
Definition TodoModel_members : list string :=
  [ "storage"; "todos"; "listeners"; "nextId";
    "constructor"; "subscribe"; "notify"; "addTodo"; "toggleComplete";
    "deleteTodo"; "updateTodo"; "clearCompleted"; "clearAll";
    "activeCount"; "completedCount"; "save" ]%string.

Definition has_member (name : string) : bool :=
  existsb (String.eqb name) TodoModel_members.

(** What the user sees of the handler. *)
Inductive UI : Type :=
| Confirm (message : string)
| Alert (message : string)
| ConsoleError (message : string).

Section ImportHandler.
Context {S : Type} `{StorageOps S} {V : Type}.
Variable JSON_parse : jsstring -> option V.
(** Calling a member of the model with one argument, for the members
    there are. *)
Variable call_member : string -> V -> M S unit.

(** The [reader.onload] callback of [_handleFileImport]: [result] is the
    content of the chosen file and [confirmed] the answer to the
    confirmation dialog.  A call of a member the object does not have
    throws a [TypeError], which the [catch] clause handles like a parse
    error. *)
Definition handleFileImport_onload (result : jsstring) (confirmed : bool)
    : M S (list UI) :=
  let failed :=
    [ ConsoleError "Failed to parse imported file:";
      Alert "Import failed: Invalid JSON file." ]%string in
  let question :=
    Confirm "Importing tasks will overwrite all current tasks. Are you sure?" in
  match JSON_parse result with
  | None => ret failed
  | Some importedTasks =>
      if confirmed then
        if has_member "importTasks" then
          bind (call_member "importTasks" importedTasks)
            (fun _ => ret [question; Alert "Tasks imported successfully!"%string])
        else ret (question :: failed)
      else ret [question]
  end.

End ImportHandler.

(** A reader for a fragment of JSON (the three literals and the empty
    array), enough to exercise the adapter and the handler on concrete
    inputs. *)
Inductive JSONValue : Type := JNull | JTrue | JFalse | JEmptyArray.

Definition parse_fragment (s : jsstring) : option JSONValue :=
  if decide (s = js "null") then Some JNull
  else if decide (s = js "true") then Some JTrue
  else if decide (s = js "false") then Some JFalse
  else if decide (s = js "[]") then Some JEmptyArray
  else None.

(** The writer for the same fragment. *)
Definition print_fragment (v : JSONValue) : option jsstring :=
  Some (match v with
        | JNull => js "null"
        | JTrue => js "true"
        | JFalse => js "false"
        | JEmptyArray => js "[]"
        end).

(** ** Writing through [StorageService]

    [JSON.stringify] and the store's [setItem] belong to the platform.
    [JSON_stringify data] is the text [setItem] receives, [None] standing
    for a thrown [TypeError]; [setItem_throws] tells when the store
    refuses a write (it is full or unavailable). *)

Section StorageServiceWrites.
Context {V : Type}.
Variable JSON_stringify : V -> option jsstring.
Variable setItem_throws : gmap jsstring jsstring -> jsstring -> jsstring -> bool.

(** [storage.setItem(k, v)]: [None] when it throws. *)
Definition setItem (k v : jsstring) (st : gmap jsstring jsstring)
    : option (gmap jsstring jsstring) :=
  if setItem_throws st k v then None else Some (<[k := v]> st).

(** [storage.removeItem(k)] *)
Definition removeItem (k : jsstring) (st : gmap jsstring jsstring)
    : gmap jsstring jsstring := delete k st.

(** Lines written with [console.error] by the writing methods. *)
Inductive WriteError : Type := FailedToSave (key : jsstring).

(** [save(key, data)]: the service afterwards and what was logged. *)
Definition StorageService_save (key : jsstring) (data : V)
    (svc : StorageService.t) : StorageService.t * list WriteError :=
  match JSON_stringify data with
  | Some text =>
      match setItem (StorageService.prefix svc ++ key) text
              (StorageService.storage svc) with
      | Some st' => (StorageService.mk (StorageService.prefix svc) st', [])
      | None => (svc, [FailedToSave key])
      end
  | None => (svc, [FailedToSave key])
  end.

End StorageServiceWrites.

(** [remove(key)] *)
Definition StorageService_remove (key : jsstring) (svc : StorageService.t)
    : StorageService.t :=
  StorageService.mk (StorageService.prefix svc)
    (removeItem (StorageService.prefix svc ++ key) (StorageService.storage svc)).

(** [key.startsWith(p)] *)
Fixpoint startsWith (key p : jsstring) : bool :=
  match p, key with
  | [], _ => true
  | c :: p', d :: key' => N.eqb c d && startsWith key' p'
  | _ :: _, [] => false
  end.

(** [storage.key(0)], ..., [storage.key(storage.length - 1)] *)
Definition storage_keys (st : gmap jsstring jsstring) : list jsstring :=
  map fst (map_to_list st).

(** [clear()]: the keys to remove are collected first, then removed. *)
Definition StorageService_clear (svc : StorageService.t) : StorageService.t :=
  let keysToRemove :=
    List.filter
      (fun key => truthy key && startsWith key (StorageService.prefix svc))
      (storage_keys (StorageService.storage svc)) in
  StorageService.mk (StorageService.prefix svc)
    (fold_left (fun st key => removeItem key st) keysToRemove
       (StorageService.storage svc)).

(** ** The components

    What a component dispatches to its parent. *)
Inductive Intent : Type :=
| AddTodo (text : jsstring)                (* add-todo, detail.text *)
| ToggleTodo (id : Z)                      (* toggle-todo, detail.id *)
| DeleteTodo (id : Z)                      (* delete-todo, detail.id *)
| UpdateTodo (id : Z) (text : jsstring).   (* update-todo, detail.id, detail.text *)

(** *** [TodoForm] *)

Module TodoForm.
Record t : Type := mk { inputValue : jsstring }.

(** [constructor()] *)
Definition init : t := mk [].

(** The [input] listener of the text field. *)
Definition input (value : jsstring) (_ : t) : t := mk value.

(** [handleSubmit(e)]: the form afterwards and the event dispatched, if
    any. *)
Definition handleSubmit (f : t) : t * option Intent :=
  if truthy (trim (inputValue f)) then (mk [], Some (AddTodo (inputValue f)))
  else (f, None).
End TodoForm.

(** *** [TodoItem] *)

Module TodoItem.
Record t : Type := mk {
  todo : Todo.t;
  isEditing : bool;
  editValue : jsstring
}.

(** [constructor()], for the task the list binds to the item. *)
Definition init (x : Todo.t) : t := mk x false [].

(** The [input] listener of the edit field. *)
Definition input (value : jsstring) (it : t) : t :=
  mk (todo it) (isEditing it) value.

Definition handleToggle (it : t) : t * option Intent :=
  (it, Some (ToggleTodo (Todo.id (todo it)))).

(** [confirmed] is the answer to the confirmation dialog. *)
Definition handleDelete (confirmed : bool) (it : t) : t * option Intent :=
  if confirmed then (it, Some (DeleteTodo (Todo.id (todo it))))
  else (it, None).

Definition handleEdit (it : t) : t * option Intent :=
  (mk (todo it) true (Todo.text (todo it)), None).

Definition handleSave (it : t) : t * option Intent :=
  if truthy (trim (editValue it)) then
    (mk (todo it) false (editValue it),
     Some (UpdateTodo (Todo.id (todo it)) (editValue it)))
  else (it, None).

Definition handleCancel (it : t) : t * option Intent :=
  (mk (todo it) false [], None).

(** [handleKeyDown(e)], [key] being [e.key]. *)
Definition handleKeyDown (key : string) (it : t) : t * option Intent :=
  if String.eqb key "Enter" then handleSave it
  else if String.eqb key "Escape" then handleCancel it
  else (it, None).
End TodoItem.

(** *** [TodoApp]

    The application object holds the model, its own copy of the task
    list and the theme.  Its storage service is the one it hands to the
    model: there is one store, kept in the model.  [body_theme] is
    [document.body.dataset.theme]. *)

Section TodoApp.
Context {S : Type} `{StorageOps S}.

Record TodoApp : Type := mkTodoApp {
  app_model : TodoModel S;
  app_todos : list Todo.t;
  app_theme : jsstring;
  body_theme : jsstring
}.

(** The callback the constructor subscribes:
    [() => { this.todos = [...this.model.todos]; }]. *)
Definition app_listener : Listener := 0%nat.

(** [constructor()], on the storage service [s]. *)
Definition TodoApp_constructor (s : S) : TodoApp :=
  let model := fst (constructor s) in
  let theme := st_load K_theme (js "light") s in
  mkTodoApp (after (subscribe app_listener) model) (todos model) theme theme.

(** A call of a method of the model from the application.  The model
    calls the subscribers last, from [notify()], with the object in the
    state the method leaves: when the application's callback is among
    the callbacks called, the application's list becomes a copy of the
    model's. *)
Definition call_model (c : M S unit) (a : TodoApp) : TodoApp :=
  let m' := after c (app_model a) in
  let called :=
    existsb (Nat.eqb app_listener) (calls (trace_of c (app_model a))) in
  mkTodoApp m' (if called then todos m' else app_todos a)
    (app_theme a) (body_theme a).

(** [toggleTheme()]: flip, save, apply. *)
Definition toggleTheme (a : TodoApp) : TodoApp :=
  let theme :=
    if decide (app_theme a = js "light") then js "dark" else js "light" in
  let m := app_model a in
  mkTodoApp
    (mkTodoModel (st_save K_theme theme (storage m)) (todos m) (listeners m)
       (nextId m))
    (app_todos a) theme theme.

(** [handleAddTodo], [handleToggleTodo], [handleDeleteTodo] and
    [handleUpdateTodo], by the event received; [now] is the clock
    reading, should a task be created. *)
Definition handleIntent (e : Intent) (now : jsstring) : TodoApp -> TodoApp :=
  match e with
  | AddTodo text => call_model (addTodo text now)
  | ToggleTodo id => call_model (toggleComplete id)
  | DeleteTodo id => call_model (deleteTodo id)
  | UpdateTodo id text => call_model (updateTodo id text)
  end.

(** [handleClearCompleted()] and [handleClearAll()], [confirmed] being
    the answer to the confirmation dialog. *)
Definition handleClearCompleted (confirmed : bool) (a : TodoApp) : TodoApp :=
  if confirmed then call_model clearCompleted a else a.

Definition handleClearAll (confirmed : bool) (a : TodoApp) : TodoApp :=
  if confirmed then call_model clearAll a else a.

(** What the user does to the application. *)
Inductive UserAction : Type :=
| DoIntent (e : Intent) (now : jsstring)
| DoClearCompleted (confirmed : bool)
| DoClearAll (confirmed : bool)
| DoToggleTheme.

Definition act (u : UserAction) : TodoApp -> TodoApp :=
  match u with
  | DoIntent e now => handleIntent e now
  | DoClearCompleted confirmed => handleClearCompleted confirmed
  | DoClearAll confirmed => handleClearAll confirmed
  | DoToggleTheme => toggleTheme
  end.

(** The figures and the button states that [render()] shows: the
    three counters, and whether the Export, Clear Completed and Clear
    All buttons are disabled. *)
Record Stats : Type := mkStats {
  stat_total : nat;
  stat_active : nat;
  stat_completed : nat;
  export_disabled : bool;
  clear_completed_disabled : bool;
  clear_all_disabled : bool
}.

Definition render_stats (a : TodoApp) : Stats :=
  mkStats
    (length (app_todos a))
    (activeCount (app_model a))
    (completedCount (app_model a))
    (Nat.eqb (length (app_todos a)) 0)
    (Nat.eqb (completedCount (app_model a)) 0)
    (Nat.eqb (length (app_todos a)) 0).

(** The application after its construction on [s] and the actions
    [us], in order. *)
Definition session (s : S) (us : list UserAction) : TodoApp :=
  fold_left (fun a u => act u a) us (TodoApp_constructor s).

End TodoApp.

Arguments TodoApp S : clear implicits.

(** * Properties *)

(** ** Strings *)

Lemma trim_nil : trim [] = [].
Proof. reflexivity. Qed.

Lemma trim_nonempty_truthy (s : jsstring) : trim s <> [] -> truthy s = true.
Proof. destruct s as [|c s]; [intros Hn; now elim Hn | reflexivity]. Qed.

Lemma is_empty_true (s : jsstring) : is_empty s = true <-> s = [].
Proof. destruct s; cbn; split; congruence. Qed.

Lemma is_empty_false (s : jsstring) : is_empty s = false <-> s <> [].
Proof. destruct s; cbn; split; congruence. Qed.

(** The guard of [addTodo] and [updateTodo] rejects exactly the texts
    that trim to the empty string. *)
Lemma guard_rejects (s : jsstring) :
  negb (truthy s) || is_empty (trim s) = true <-> trim s = [].
Proof.
  rewrite orb_true_iff, is_empty_true. split.
  - intros [Hs | Hs]; [| exact Hs]. destruct s; [reflexivity | discriminate].
  - intros Hs. now right.
Qed.

Lemma guard_accepts (s : jsstring) :
  truthy s && negb (is_empty (trim s)) = true <-> trim s <> [].
Proof.
  rewrite andb_true_iff, negb_true_iff, is_empty_false. split.
  - now intros [_ Hs].
  - intros Hs. split; [now apply trim_nonempty_truthy | exact Hs].
Qed.

(** ** The methods, as equations *)

Section MethodEquations.
Context {S : Type} `{StorageOps S}.
Implicit Types (m : TodoModel S) (ts : list Todo.t).

Lemma save_eq m :
  save m =
  (tt, saved_with (todos m) m,
   [EvSave K_items (todos m); EvSave K_nextId (nextId m)]).
Proof. reflexivity. Qed.

Lemma forEach_call_eq (ls : list Listener) m :
  forEach ls call m = (tt, m, map EvCall ls).
Proof.
  induction ls as [|l ls IH]; [reflexivity |].
  cbn [forEach]. unfold bind. cbn. rewrite IH. reflexivity.
Qed.

Lemma notify_eq m : notify m = (tt, m, map EvCall (listeners m)).
Proof. unfold notify, bind, this. rewrite forEach_call_eq. reflexivity. Qed.

(** The common tail of the mutating methods: assign the new sequence,
    save, notify. *)
Lemma commit_eq ts m :
  bind (set_todos ts) (fun _ => bind save (fun _ => notify)) m =
  (tt, saved_with ts m,
   EvSave K_items ts :: EvSave K_nextId (nextId m) :: map EvCall (listeners m)).
Proof.
  unfold bind at 1. cbn [set_todos].
  unfold bind. rewrite save_eq, notify_eq. reflexivity.
Qed.

Lemma subscribe_eq l m :
  subscribe l m =
  (tt, mkTodoModel (storage m) (todos m) (listeners m ++ [l]) (nextId m), []).
Proof. reflexivity. Qed.

Lemma addTodo_rejected text now m :
  trim text = [] -> addTodo text now m = (tt, m, []).
Proof.
  intros Ht. unfold addTodo.
  destruct (negb (truthy text) || is_empty (trim text)) eqn:Hg; [reflexivity |].
  apply guard_rejects in Ht. congruence.
Qed.

Lemma addTodo_accepted text now m :
  trim text <> [] ->
  addTodo text now m =
  (tt,
   saved_with (todos m ++ [Todo.mk (nextId m) (trim text) false now])
     (mkTodoModel (storage m) (todos m) (listeners m) (nextId m + 1)),
   EvSave K_items (todos m ++ [Todo.mk (nextId m) (trim text) false now])
   :: EvSave K_nextId (nextId m + 1) :: map EvCall (listeners m)).
Proof.
  intros Ht. unfold addTodo.
  destruct (negb (truthy text) || is_empty (trim text)) eqn:Hg.
  - apply guard_rejects in Hg. contradiction.
  - unfold bind, post_increment_nextId, this, set_nextId, set_todos, ret,
      save, storage_save, notify, bind. cbn.
    rewrite forEach_call_eq. reflexivity.
Qed.

(** Finding a task and updating it in place. *)

Lemma find_existsb (p : Todo.t -> bool) (l : list Todo.t) :
  existsb p l = true <-> exists t, List.find p l = Some t.
Proof.
  induction l as [|x l IH]; cbn.
  - split; [discriminate | intros [t Ht]; discriminate].
  - destruct (p x); cbn; [split; eauto | exact IH].
Qed.

Lemma find_none_existsb (p : Todo.t -> bool) (l : list Todo.t) :
  existsb p l = false <-> List.find p l = None.
Proof.
  induction l as [|x l IH]; cbn; [tauto |].
  destruct (p x); cbn; [split; discriminate | exact IH].
Qed.

(** [find] returns the first match, and the in-place update touches that
    element and nothing else. *)
Lemma find_update_found (p : Todo.t -> bool) (l : list Todo.t) (t : Todo.t) :
  List.find p l = Some t ->
  exists l1 l2,
    l = l1 ++ t :: l2 /\
    Forall (fun x => p x = false) l1 /\
    p t = true /\
    forall f, update_found p f l = l1 ++ f t :: l2.
Proof.
  induction l as [|x l IH]; cbn; [discriminate |].
  destruct (p x) eqn:Hx.
  - intros [= <-]. exists [], l.
    split; [reflexivity |]. split; [constructor |]. split; [exact Hx |].
    intros f. reflexivity.
  - intros Hf. destruct (IH Hf) as (l1 & l2 & -> & Hl1 & Ht & Hup).
    exists (x :: l1), l2.
    split; [reflexivity |]. split; [now constructor |]. split; [exact Ht |].
    intros f. cbn. f_equal. apply Hup.
Qed.

Ltac run_method :=
  unfold bind, this, ret, set_todos, set_nextId, save, storage_save, notify,
    bind; cbn; rewrite ?forEach_call_eq.

Lemma deleteTodo_eq id m :
  let ts := List.filter (fun t => negb (has_id id t)) (todos m) in
  deleteTodo id m =
  (tt, saved_with ts m,
   EvSave K_items ts :: EvSave K_nextId (nextId m) :: map EvCall (listeners m)).
Proof. unfold deleteTodo. run_method. reflexivity. Qed.

Lemma clearCompleted_eq m :
  let ts := List.filter (fun t => negb (Todo.completed t)) (todos m) in
  clearCompleted m =
  (tt, saved_with ts m,
   EvSave K_items ts :: EvSave K_nextId (nextId m) :: map EvCall (listeners m)).
Proof. unfold clearCompleted. run_method. reflexivity. Qed.

Lemma clearAll_eq m :
  clearAll m =
  (tt, saved_with [] m,
   EvSave K_items [] :: EvSave K_nextId (nextId m) :: map EvCall (listeners m)).
Proof. unfold clearAll. run_method. reflexivity. Qed.

Lemma toggleComplete_found id m todo :
  List.find (has_id id) (todos m) = Some todo ->
  let ts :=
    update_found (has_id id)
      (Todo.set_completed (negb (Todo.completed todo))) (todos m) in
  toggleComplete id m =
  (tt, saved_with ts m,
   EvSave K_items ts :: EvSave K_nextId (nextId m) :: map EvCall (listeners m)).
Proof.
  intros Hf. unfold toggleComplete, bind at 1, this. cbn. rewrite Hf.
  run_method. reflexivity.
Qed.

Lemma toggleComplete_missing id m :
  List.find (has_id id) (todos m) = None -> toggleComplete id m = (tt, m, []).
Proof.
  intros Hf. unfold toggleComplete, bind at 1, this. cbn. rewrite Hf.
  reflexivity.
Qed.

Lemma updateTodo_accepted id newText m todo :
  List.find (has_id id) (todos m) = Some todo ->
  trim newText <> [] ->
  let ts :=
    update_found (has_id id) (Todo.set_text (trim newText)) (todos m) in
  updateTodo id newText m =
  (tt, saved_with ts m,
   EvSave K_items ts :: EvSave K_nextId (nextId m) :: map EvCall (listeners m)).
Proof.
  intros Hf Ht. apply guard_accepts in Ht.
  unfold updateTodo, bind at 1, this. cbn. rewrite Hf, Ht.
  run_method. reflexivity.
Qed.

Lemma updateTodo_rejected id newText m :
  List.find (has_id id) (todos m) = None \/ trim newText = [] ->
  updateTodo id newText m = (tt, m, []).
Proof.
  intros Hc. unfold updateTodo, bind at 1, this. cbn.
  destruct (List.find (has_id id) (todos m)) as [todo|]; [| reflexivity].
  destruct Hc as [Hc | Hc]; [discriminate |].
  destruct (truthy newText && negb (is_empty (trim newText))) eqn:Hg;
    [| reflexivity].
  apply guard_accepts in Hg. contradiction.
Qed.

End MethodEquations.

(** ** Runs *)

Section RunFacts.
Context {S : Type} `{StorageOps S}.
Implicit Types (m : TodoModel S) (ops : list Op).

Lemma run_cons op ops m :
  run (op :: ops) m =
  (final ops (after (exec op) m),
   trace_of (exec op) m ++ snd (fst (run ops (after (exec op) m))),
   issued op m (after (exec op) m) ++ issued_ids ops (after (exec op) m)).
Proof.
  unfold final, issued_ids. cbn [run].
  destruct (run ops (after (exec op) m)) as [[m2 tr2] ids2]. reflexivity.
Qed.

Lemma final_nil m : final [] m = m.
Proof. reflexivity. Qed.

Lemma final_cons op ops m : final (op :: ops) m = final ops (after (exec op) m).
Proof. unfold final at 1. rewrite run_cons. reflexivity. Qed.

Lemma final_app ops1 ops2 m : final (ops1 ++ ops2) m = final ops2 (final ops1 m).
Proof.
  revert m. induction ops1 as [|op ops1 IH]; intros m; [reflexivity |].
  cbn [app]. rewrite !final_cons. apply IH.
Qed.

Lemma issued_ids_nil m : issued_ids [] m = [].
Proof. reflexivity. Qed.

Lemma issued_ids_cons op ops m :
  issued_ids (op :: ops) m =
  issued op m (after (exec op) m) ++ issued_ids ops (after (exec op) m).
Proof. unfold issued_ids at 1. rewrite run_cons. reflexivity. Qed.

Lemma issued_ids_app ops1 ops2 m :
  issued_ids (ops1 ++ ops2) m =
  issued_ids ops1 m ++ issued_ids ops2 (final ops1 m).
Proof.
  revert m. induction ops1 as [|op ops1 IH]; intros m; [reflexivity |].
  cbn [app]. rewrite !issued_ids_cons, final_cons, IH, app_assoc. reflexivity.
Qed.

End RunFacts.

(** ** Adding a task *)

Section AddTodo.
Context {S : Type} `{StorageOps S}.

(** C1. For every input string [text]: when [text] trims to a non-empty
    string, [addTodo(text)] appends exactly one task at the end of the
    sequence, whose text is the trimmed input, whose completed flag is
    false and whose id is the model's [nextId] at the time of the call;
    when [text] trims to the empty string the call does nothing at all:
    the object, hence the task sequence, is unchanged and neither the
    storage service nor a subscriber is called. *)
Theorem addTodo_appends_or_ignores (m : TodoModel S) (text now : jsstring) :
  (trim text <> [] ->
   todos (after (addTodo text now) m) =
   todos m ++ [Todo.mk (nextId m) (trim text) false now]) /\
  (trim text = [] -> addTodo text now m = (tt, m, [])).
Proof.
  split.
  - intros Ht. unfold after. rewrite (addTodo_accepted _ _ _ Ht). reflexivity.
  - apply addTodo_rejected.
Qed.

End AddTodo.

Lemma addTodo_appends_or_ignores_witness :
  let m := fst (constructor MockStorage.empty) in
  todos (after (addTodo (js "  Test todo  ") (js "2024-01-15T10:30:00.000Z")) m) =
    [Todo.mk 1 (js "Test todo") false (js "2024-01-15T10:30:00.000Z")] /\
  addTodo (js "   ") (js "2024-01-15T10:30:00.000Z") m = (tt, m, []).
Proof.
  split.
  - exact (proj1 (addTodo_appends_or_ignores
                    (fst (constructor MockStorage.empty))
                    (js "  Test todo  ") (js "2024-01-15T10:30:00.000Z"))
             ltac:(vm_compute; discriminate)).
  - exact (proj2 (addTodo_appends_or_ignores
                    (fst (constructor MockStorage.empty))
                    (js "   ") (js "2024-01-15T10:30:00.000Z"))
             ltac:(reflexivity)).
Defined.

(** ** The two counters *)

Lemma filter_partition_length (c : Todo.t -> bool) (l : list Todo.t) :
  (length (List.filter (fun t => negb (c t)) l) + length (List.filter c l))%nat
  = length l.
Proof.
  induction l as [|t l IH]; [reflexivity |].
  cbn. destruct (c t); cbn; lia.
Qed.

Section Counts.
Context {S : Type} `{StorageOps S}.

(** C7. After every model operation, that is in the state any run of
    calls leaves behind, [activeCount] plus [completedCount] equals the
    length of the task sequence. *)
Theorem counts_add_up (m : TodoModel S) (ops : list Op) :
  (activeCount (final ops m) + completedCount (final ops m))%nat
  = length (todos (final ops m)).
Proof. unfold activeCount, completedCount. apply filter_partition_length. Qed.

End Counts.

(** ** Toggling a task *)

Lemma has_id_true (id : Z) (t : Todo.t) : has_id id t = true <-> Todo.id t = id.
Proof. unfold has_id. apply Z.eqb_eq. Qed.

Lemma has_id_false (id : Z) (t : Todo.t) : has_id id t = false <-> Todo.id t <> id.
Proof. unfold has_id. apply Z.eqb_neq. Qed.

Lemma find_has_id_present (id : Z) (l : list Todo.t) :
  (exists t, In t l /\ Todo.id t = id) <->
  (exists t, List.find (has_id id) l = Some t).
Proof.
  rewrite <- find_existsb, existsb_exists. split.
  - intros (t & Hin & Hid). exists t. now rewrite has_id_true.
  - intros (t & Hin & Hid). exists t. now rewrite <- has_id_true.
Qed.

Section ToggleComplete.
Context {S : Type} `{StorageOps S}.

(** C8. For every id present in the task sequence, [toggleComplete(id)]
    changes only the completed field of the task with that id (the first
    one, should several carry it): the sequence before the call is
    [l1 ++ t :: l2] with [t] the first task with that id, and after the
    call it is [l1 ++ t' :: l2], where [t'] has the id, text and
    createdAt of [t] and the opposite completed flag.  Every other task,
    the order and the length of the sequence, the subscribers and the
    [nextId] counter are unchanged. *)
Theorem toggleComplete_frame (m : TodoModel S) (id : Z) :
  (exists t, In t (todos m) /\ Todo.id t = id) ->
  exists l1 t l2,
    todos m = l1 ++ t :: l2 /\
    Forall (fun x => Todo.id x <> id) l1 /\
    Todo.id t = id /\
    let m' := after (toggleComplete id) m in
    todos m' =
      l1 ++ Todo.mk (Todo.id t) (Todo.text t) (negb (Todo.completed t))
              (Todo.createdAt t) :: l2 /\
    length (todos m') = length (todos m) /\
    nextId m' = nextId m /\
    listeners m' = listeners m.
Proof.
  intros Hin. apply find_has_id_present in Hin as [t Hf].
  destruct (find_update_found _ _ _ Hf) as (l1 & l2 & Hl & Hl1 & Ht & Hup).
  exists l1, t, l2.
  split; [exact Hl |].
  split.
  { eapply Forall_impl; [exact Hl1 |]. intros x Hx. now apply has_id_false. }
  split; [now apply has_id_true |].
  unfold after. rewrite (toggleComplete_found _ _ _ Hf). cbn.
  rewrite Hup. unfold Todo.set_completed.
  split; [reflexivity |].
  split; [rewrite Hl, !length_app; reflexivity |].
  split; reflexivity.
Qed.

End ToggleComplete.

Lemma toggleComplete_frame_witness :
  let a := Todo.mk 1 (js "A") false (js "2024-01-15T10:30:00.000Z") in
  let b := Todo.mk 2 (js "B") false (js "2024-01-15T10:31:00.000Z") in
  let m := mkTodoModel MockStorage.empty [a; b] [] 3 in
  exists l1 t l2,
    todos m = l1 ++ t :: l2 /\
    Forall (fun x => Todo.id x <> 2) l1 /\
    Todo.id t = 2 /\
    let m' := after (toggleComplete 2) m in
    todos m' =
      l1 ++ Todo.mk (Todo.id t) (Todo.text t) (negb (Todo.completed t))
              (Todo.createdAt t) :: l2 /\
    length (todos m') = length (todos m) /\
    nextId m' = nextId m /\
    listeners m' = listeners m.
Proof.
  intros a b m.
  apply (toggleComplete_frame m 2).
  exists b. split; [right; left; reflexivity | reflexivity].
Defined.

(** ** Construction *)

Section Constructor.
Context {S : Type} `{StorageOps S}.

Lemma constructor_eq (s : S) :
  constructor s =
  (mkTodoModel s (st_load K_items [] s) [] (st_load K_nextId 1 s),
   [EvLoad K_items; EvLoad K_nextId]).
Proof. reflexivity. Qed.

End Constructor.

(** C10. Constructing a [TodoModel] only reads from the storage service:
    the calls it makes are loads (no save, no remove, no clear), the
    service is left as it was, no subscriber is registered or called, and
    the sequence and the counter are exactly what the two loads return,
    the defaults being the empty list and 1.  With [MockStorage], a
    missing [items] key gives the empty sequence and a missing [nextId]
    key gives 1. *)
Theorem constructor_only_reads :
  (forall (S : Type) (service : StorageOps S) (s : S),
     let m := fst (constructor s) in
     let tr := snd (constructor s) in
     forallb is_load tr = true /\
     saves tr = [] /\
     calls tr = [] /\
     storage m = s /\
     listeners m = [] /\
     todos m = st_load K_items [] s /\
     nextId m = st_load K_nextId 1 s) /\
  (forall d : MockStorage.t,
     (MockStorage.get K_items d = None -> todos (fst (constructor d)) = []) /\
     (MockStorage.get K_nextId d = None -> nextId (fst (constructor d)) = 1) /\
     (forall ts, MockStorage.get K_items d = Some ts ->
                 todos (fst (constructor d)) = ts) /\
     (forall n, MockStorage.get K_nextId d = Some n ->
                nextId (fst (constructor d)) = n)).
Proof.
  split.
  - intros S service s. cbn. repeat split; reflexivity.
  - intros d. split; [| split; [| split]].
    + intros Hd. cbn. unfold MockStorage.load. now rewrite Hd.
    + intros Hd. cbn. unfold MockStorage.load. now rewrite Hd.
    + intros ts Hd. cbn. unfold MockStorage.load. now rewrite Hd.
    + intros n Hd. cbn. unfold MockStorage.load. now rewrite Hd.
Qed.

Lemma constructor_only_reads_witness :
  todos (fst (constructor MockStorage.empty)) = [] /\
  nextId (fst (constructor MockStorage.empty)) = 1 /\
  todos (fst (constructor
                (MockStorage.mk
                   (Some [Todo.mk 1 (js "Existing todo") false []])
                   (Some 2) None))) =
    [Todo.mk 1 (js "Existing todo") false []] /\
  nextId (fst (constructor
                 (MockStorage.mk
                    (Some [Todo.mk 1 (js "Existing todo") false []])
                    (Some 2) None))) = 2.
Proof.
  pose proof (proj2 constructor_only_reads MockStorage.empty) as (Hi & Hn & _).
  pose proof (proj2 constructor_only_reads
                (MockStorage.mk
                   (Some [Todo.mk 1 (js "Existing todo") false []])
                   (Some 2) None)) as (_ & _ & Hi' & Hn').
  split; [exact (Hi eq_refl) |].
  split; [exact (Hn eq_refl) |].
  split; [exact (Hi' _ eq_refl) | exact (Hn' _ eq_refl)].
Defined.

(** ** Notification of the subscribers *)

Lemma calls_map_EvCall (ls : list Listener) : calls (map EvCall ls) = ls.
Proof. induction ls as [|l ls IH]; cbn; [reflexivity | now rewrite IH]. Qed.

Lemma saves_map_EvCall (ls : list Listener) : saves (map EvCall ls) = [].
Proof. induction ls as [|l ls IH]; cbn; [reflexivity | exact IH]. Qed.

Lemma calls_commit (ts : list Todo.t) (n : Z) (ls : list Listener) :
  calls (EvSave K_items ts :: EvSave K_nextId n :: map EvCall ls) = ls.
Proof. cbn. apply calls_map_EvCall. Qed.

Lemma saves_commit (ts : list Todo.t) (n : Z) (ls : list Listener) :
  saves (EvSave K_items ts :: EvSave K_nextId n :: map EvCall ls) =
  [EvSave K_items ts; EvSave K_nextId n].
Proof. cbn. now rewrite saves_map_EvCall. Qed.

Section Notification.
Context {S : Type} `{StorageOps S}.

(** C4, as the code has it.  [deleteTodo], [clearCompleted] and
    [clearAll] call every registered subscriber exactly once per call, in
    the order of registration, also when the call removed nothing (a
    delete of an unknown id).  [addTodo] does so exactly when the text
    trims to a non-empty string, [toggleComplete] exactly when a task
    with the id exists, [updateTodo] exactly when a task with the id
    exists and the new text trims to a non-empty string; otherwise these
    three return before notifying and call no subscriber. *)
Theorem subscribers_called_once_when_saved (m : TodoModel S) :
  (forall id, calls (trace_of (deleteTodo id) m) = listeners m) /\
  calls (trace_of clearCompleted m) = listeners m /\
  calls (trace_of clearAll m) = listeners m /\
  (forall text now,
     calls (trace_of (addTodo text now) m) =
     if decide (trim text = []) then [] else listeners m) /\
  (forall id,
     calls (trace_of (toggleComplete id) m) =
     if existsb (has_id id) (todos m) then listeners m else []) /\
  (forall id newText,
     calls (trace_of (updateTodo id newText) m) =
     if existsb (has_id id) (todos m) then
       if decide (trim newText = []) then [] else listeners m
     else []).
Proof.
  unfold trace_of. repeat split.
  - intros id. rewrite deleteTodo_eq. apply calls_commit.
  - rewrite clearCompleted_eq. apply calls_commit.
  - rewrite clearAll_eq. apply calls_commit.
  - intros text now. destruct (decide (trim text = [])) as [Ht | Ht].
    + now rewrite (addTodo_rejected _ _ _ Ht).
    + rewrite (addTodo_accepted _ _ _ Ht). apply calls_commit.
  - intros id. destruct (existsb (has_id id) (todos m)) eqn:He.
    + apply find_existsb in He as [t Hf].
      rewrite (toggleComplete_found _ _ _ Hf). apply calls_commit.
    + apply find_none_existsb in He.
      now rewrite (toggleComplete_missing _ _ He).
  - intros id newText. destruct (existsb (has_id id) (todos m)) eqn:He.
    + apply find_existsb in He as [t Hf].
      destruct (decide (trim newText = [])) as [Ht | Ht].
      * rewrite updateTodo_rejected; [reflexivity | now right].
      * rewrite (updateTodo_accepted _ _ _ _ Hf Ht). apply calls_commit.
    + apply find_none_existsb in He.
      rewrite updateTodo_rejected; [reflexivity | now left].
Qed.

End Notification.

(** C4, as stated, fails: with one subscriber and one task, toggling an
    id that no task carries is a mutating call of the model, and the
    subscriber is not called. *)
Lemma toggle_unknown_id_calls_no_subscriber :
  let m :=
    final [OpSubscribe 7%nat; OpAddTodo (js "Test todo") (js "2024-01-15T10:30:00.000Z")]
      (fst (constructor MockStorage.empty)) in
  mutating (OpToggleComplete 999) = true /\
  listeners m = [7%nat] /\
  calls (trace_of (exec (OpToggleComplete 999)) m) = [] /\
  calls (trace_of (exec (OpToggleComplete 999)) m) <> listeners m.
Proof. vm_compute. repeat split; discriminate. Qed.

(** ** The id counter *)

Lemma StronglySorted_lt_NoDup (l : list Z) : StronglySorted Z.lt l -> NoDup l.
Proof.
  induction 1 as [|x l Hs IH Hx]; constructor; [| exact IH].
  intros Hin. rewrite Forall_forall in Hx. specialize (Hx _ Hin). lia.
Qed.

Section Counter.
Context {S : Type} `{StorageOps S}.
Implicit Types (m : TodoModel S) (ops : list Op).

(** A call issues no id and leaves the counter alone, or issues the
    current value of the counter and steps the counter by one. *)
Lemma exec_issued op m :
  let m' := after (exec op) m in
  (issued op m m' = [] /\ nextId m' = nextId m) \/
  (issued op m m' = [nextId m] /\ nextId m' = nextId m + 1).
Proof.
  unfold after. destruct op as [l | text now | id | id | id newText | |]; cbn [exec issued].
  - left. now rewrite subscribe_eq.
  - destruct (decide (trim text = [])) as [Ht | Ht].
    + left. rewrite (addTodo_rejected _ _ _ Ht). cbn. now rewrite drop_all.
    + right. rewrite (addTodo_accepted _ _ _ Ht). cbn.
      now rewrite drop_app_length.
  - left. split; [reflexivity |].
    destruct (List.find (has_id id) (todos m)) as [t|] eqn:Hf.
    + now rewrite (toggleComplete_found _ _ _ Hf).
    + now rewrite (toggleComplete_missing _ _ Hf).
  - left. now rewrite deleteTodo_eq.
  - left. split; [reflexivity |].
    destruct (List.find (has_id id) (todos m)) as [t|] eqn:Hf.
    + destruct (decide (trim newText = [])) as [Ht | Ht].
      * rewrite updateTodo_rejected; [reflexivity | now right].
      * now rewrite (updateTodo_accepted _ _ _ _ Hf Ht).
    + rewrite updateTodo_rejected; [reflexivity | now left].
  - left. now rewrite clearCompleted_eq.
  - left. now rewrite clearAll_eq.
Qed.

(** A call writes nothing, or writes the collection and the counter it
    leaves behind, in that order. *)
Lemma exec_saves op m :
  let m' := after (exec op) m in
  saves (trace_of (exec op) m) = [] \/
  saves (trace_of (exec op) m) =
    [EvSave K_items (todos m'); EvSave K_nextId (nextId m')].
Proof.
  unfold after, trace_of.
  destruct op as [l | text now | id | id | id newText | |]; cbn [exec].
  - left. now rewrite subscribe_eq.
  - destruct (decide (trim text = [])) as [Ht | Ht].
    + left. now rewrite (addTodo_rejected _ _ _ Ht).
    + right. rewrite (addTodo_accepted _ _ _ Ht). apply saves_commit.
  - destruct (List.find (has_id id) (todos m)) as [t|] eqn:Hf.
    + right. rewrite (toggleComplete_found _ _ _ Hf). apply saves_commit.
    + left. now rewrite (toggleComplete_missing _ _ Hf).
  - right. rewrite deleteTodo_eq. apply saves_commit.
  - destruct (List.find (has_id id) (todos m)) as [t|] eqn:Hf.
    + destruct (decide (trim newText = [])) as [Ht | Ht].
      * left. rewrite updateTodo_rejected; [reflexivity | now right].
      * right. rewrite (updateTodo_accepted _ _ _ _ Hf Ht). apply saves_commit.
    + left. rewrite updateTodo_rejected; [reflexivity | now left].
  - right. rewrite clearCompleted_eq. apply saves_commit.
  - right. rewrite clearAll_eq. apply saves_commit.
Qed.

(** Along a run the counter never decreases, and the ids issued are
    increasing and lie between the counter at the start and the counter
    at the end. *)
Lemma run_issued ops m :
  nextId m <= nextId (final ops m) /\
  Forall (fun i => nextId m <= i < nextId (final ops m)) (issued_ids ops m) /\
  StronglySorted Z.lt (issued_ids ops m).
Proof.
  revert m. induction ops as [|op ops IH]; intros m.
  - rewrite final_nil, issued_ids_nil.
    split; [lia |]. split; constructor.
  - rewrite final_cons, issued_ids_cons.
    destruct (IH (after (exec op) m)) as (Hle & Hall & Hsorted).
    destruct (exec_issued op m) as [[-> Hn] | [-> Hn]]; rewrite Hn in *.
    + cbn [app]. repeat split; assumption.
    + cbn [app]. split; [lia |]. split.
      * constructor; [lia |].
        eapply Forall_impl; [exact Hall |]. cbn. intros i Hi. lia.
      * constructor; [exact Hsorted |].
        eapply Forall_impl; [exact Hall |]. cbn. intros i Hi. lia.
Qed.

(** A call writes nothing and leaves the sequence and the counter as
    they were, or writes the collection and the counter it leaves
    behind, in that order. *)
Lemma exec_saves_or_unchanged op m :
  let m' := after (exec op) m in
  (saves (trace_of (exec op) m) = [] /\
   todos m' = todos m /\ nextId m' = nextId m) \/
  saves (trace_of (exec op) m) =
    [EvSave K_items (todos m'); EvSave K_nextId (nextId m')].
Proof.
  unfold after, trace_of.
  destruct op as [l | text now | id | id | id newText | |]; cbn [exec].
  - left. now rewrite subscribe_eq.
  - destruct (decide (trim text = [])) as [Ht | Ht].
    + left. now rewrite (addTodo_rejected _ _ _ Ht).
    + right. rewrite (addTodo_accepted _ _ _ Ht). apply saves_commit.
  - destruct (List.find (has_id id) (todos m)) as [t|] eqn:Hf.
    + right. rewrite (toggleComplete_found _ _ _ Hf). apply saves_commit.
    + left. now rewrite (toggleComplete_missing _ _ Hf).
  - right. rewrite deleteTodo_eq. apply saves_commit.
  - destruct (List.find (has_id id) (todos m)) as [t|] eqn:Hf.
    + destruct (decide (trim newText = [])) as [Ht | Ht].
      * left. rewrite updateTodo_rejected; [now repeat split | now right].
      * right. rewrite (updateTodo_accepted _ _ _ _ Hf Ht). apply saves_commit.
    + left. rewrite updateTodo_rejected; [now repeat split | now left].
  - right. rewrite clearCompleted_eq. apply saves_commit.
  - right. rewrite clearAll_eq. apply saves_commit.
Qed.

(** A run of [k] calls steps the counter at most [k] times. *)
Lemma run_counter_le ops m :
  nextId (final ops m) <= nextId m + Z.of_nat (length ops).
Proof.
  revert m. induction ops as [|op ops IH]; intros m.
  - rewrite final_nil. cbn. lia.
  - rewrite final_cons. specialize (IH (after (exec op) m)).
    cbn [length]. destruct (exec_issued op m) as [[_ Hn] | [_ Hn]]; lia.
Qed.

(** C2. Within one [TodoModel] instance whose counter stays in the
    range where JavaScript's [nextId++] is exact, for every sequence of
    calls [ops] followed by one more call [op]: the ids issued by
    [addTodo] along the run are strictly increasing, hence never repeat,
    whatever was deleted in between; the counter left by the last call
    is strictly greater than every id issued, and ids and counter are
    still in the exact range; and the last call either leaves the
    sequence and the counter untouched and writes nothing, or writes the
    collection and that counter together.  In particular adding A,
    deleting A and adding B issues the counter's value and then its
    successor, not the same id again. *)
Theorem issued_ids_strictly_increasing (m : TodoModel S) (ops : list Op) (op : Op) :
  increments_exact m (length ops + 1) ->
  let m1 := final ops m in
  let m2 := after (exec op) m1 in
  let ids := issued_ids (ops ++ [op]) m in
  StronglySorted Z.lt ids /\
  NoDup ids /\
  Forall (fun i => - 2 ^ 53 <= i < 2 ^ 53 /\ i < nextId m2) ids /\
  nextId m2 <= 2 ^ 53 /\
  ((saves (trace_of (exec op) m1) = [] /\
    todos m2 = todos m1 /\ nextId m2 = nextId m1) \/
   saves (trace_of (exec op) m1) =
     [EvSave K_items (todos m2); EvSave K_nextId (nextId m2)]) /\
  (forall a ta b tb,
     trim a <> [] -> trim b <> [] -> increments_exact m 2 ->
     issued_ids [OpAddTodo a ta; OpDeleteTodo (nextId m); OpAddTodo b tb] m =
     [nextId m; nextId m + 1]).
Proof.
  intros [Hlow Hhigh]. cbn zeta.
  destruct (run_issued (ops ++ [op]) m) as (_ & Hall & Hsorted).
  pose proof (run_counter_le (ops ++ [op]) m) as Hle.
  rewrite final_app, final_cons, final_nil in Hall, Hle.
  rewrite length_app in Hle. cbn [length] in Hle.
  split; [exact Hsorted |].
  split; [now apply StronglySorted_lt_NoDup |].
  split; [eapply Forall_impl; [exact Hall |]; cbn; intros i Hi; lia |].
  split; [lia |].
  split; [apply exec_saves_or_unchanged |].
  intros a ta b tb Ha Hb _.
  rewrite !issued_ids_cons, issued_ids_nil. unfold after. cbn [exec issued].
  rewrite (addTodo_accepted _ _ _ Ha). cbn [fst snd].
  rewrite deleteTodo_eq. cbn [fst snd].
  rewrite (addTodo_accepted _ _ _ Hb). cbn [fst snd saved_with todos nextId].
  rewrite !drop_app_length. reflexivity.
Qed.

End Counter.

Lemma issued_ids_strictly_increasing_witness :
  let tA := js "2024-01-15T10:30:00.000Z" in
  let tB := js "2024-01-15T10:31:00.000Z" in
  let m := fst (constructor MockStorage.empty) in
  StronglySorted Z.lt
    (issued_ids [OpAddTodo (js "A") tA; OpDeleteTodo 1; OpAddTodo (js "B") tB] m) /\
  issued_ids [OpAddTodo (js "A") tA; OpDeleteTodo 1; OpAddTodo (js "B") tB] m
  = [1; 2].
Proof.
  intros tA tB m. split.
  - exact (proj1 (issued_ids_strictly_increasing m
                    [OpAddTodo (js "A") tA; OpDeleteTodo 1]
                    (OpAddTodo (js "B") tB)
                    ltac:(split; vm_compute; discriminate))).
  - exact (proj2 (proj2 (proj2 (proj2 (proj2
             (issued_ids_strictly_increasing m [] OpClearAll
                ltac:(split; vm_compute; discriminate))))))
             (js "A") tA (js "B") tB
             ltac:(vm_compute; discriminate) ltac:(vm_compute; discriminate)
             ltac:(split; vm_compute; discriminate)).
Defined.

(** ** Persistence *)

#[export] Instance MockStorage_laws : StorageLaws MockStorage.t.
Proof.
  split.
  - intros k v d s. destruct k; reflexivity.
  - intros k k' v d s Hne. destruct k, k'; try reflexivity; now elim Hne.
Qed.

Section Persistence.
Context {S : Type} `{StorageLaws S}.
Implicit Types (m : TodoModel S) (ts : list Todo.t).

(** After [save()] the service returns the collection and the counter
    of the model, whatever the defaults asked with. *)
Lemma saved_with_loads ts m (d : list Todo.t) (d' : Z) :
  st_load K_items d (storage (saved_with ts m)) = ts /\
  st_load K_nextId d' (storage (saved_with ts m)) = nextId m.
Proof.
  cbn. split.
  - rewrite (load_save_other K_nextId K_items) by discriminate.
    apply (load_save_same K_items).
  - apply (load_save_same K_nextId).
Qed.






End Persistence.


(** ** Loading through [StorageService] *)

Section StorageServiceLoad.
Context {V : Type} (JSON_parse : jsstring -> option V).
Implicit Types (svc : StorageService.t) (key : jsstring) (defaultValue : V).

(** C6. [JSON.parse] rejects the empty string.  For every key and
    default value, [load] returns the default value when the namespaced
    key (the prefix followed by the key) is absent from the store or the
    stored string fails to deserialize, and otherwise returns the
    deserialized stored value.  So the result is the default value
    exactly in those two cases, and in the one where the stored value is
    itself the default value. *)
Theorem load_default_or_parsed svc key defaultValue :
  JSON_parse [] = None ->
  let item :=
    StorageService.getItem (StorageService.prefix svc ++ key)
      (StorageService.storage svc) in
  let absent_or_fails :=
    item = None \/ exists s, item = Some s /\ JSON_parse s = None in
  (absent_or_fails ->
   fst (StorageService.load JSON_parse key defaultValue svc) = defaultValue) /\
  (forall s v,
     item = Some s -> JSON_parse s = Some v ->
     fst (StorageService.load JSON_parse key defaultValue svc) = v) /\
  (fst (StorageService.load JSON_parse key defaultValue svc) = defaultValue <->
   absent_or_fails \/
   exists s, item = Some s /\ JSON_parse s = Some defaultValue).
Proof.
  intros Hempty item absent_or_fails.
  assert (Hdefault : absent_or_fails ->
            fst (StorageService.load JSON_parse key defaultValue svc)
            = defaultValue).
  { unfold StorageService.load. fold item.
    intros [-> | (s & -> & Hs)]; [reflexivity |].
    destruct (truthy s); [now rewrite Hs | reflexivity]. }
  assert (Hparsed : forall s v,
            item = Some s -> JSON_parse s = Some v ->
            fst (StorageService.load JSON_parse key defaultValue svc) = v).
  { unfold StorageService.load. fold item.
    intros s v -> Hs. destruct s as [|c s]; [congruence |].
    cbn [truthy]. now rewrite Hs. }
  split; [exact Hdefault |]. split; [exact Hparsed |]. split.
  - intros Hload. destruct item as [s|] eqn:Hitem; [| left; now left].
    destruct (JSON_parse s) as [v|] eqn:Hs.
    + right. exists s. split; [reflexivity |].
      rewrite (Hparsed s v eq_refl Hs) in Hload. now subst v.
    + left. right. exists s. now split.
  - intros [Hd | (s & Hitem & Hs)]; [now apply Hdefault |].
    now apply (Hparsed s).
Qed.

(** C9. When the store maps the namespaced key to the empty string,
    [load] returns the default value although the key is present: the
    stored string is tested for truthiness, [JSON.parse] is not reached
    (whatever it would answer) and nothing is logged. *)
Theorem load_empty_string_is_default svc key defaultValue :
  StorageService.getItem (StorageService.prefix svc ++ key)
    (StorageService.storage svc) = Some [] ->
  StorageService.load JSON_parse key defaultValue svc = (defaultValue, []).
Proof.
  intros Hitem. unfold StorageService.load. rewrite Hitem. reflexivity.
Qed.

End StorageServiceLoad.

Lemma load_default_or_parsed_witness :
  let svc :=
    StorageService.mk (js "todo-")
      {[ js "todo-done" := js "true"; js "todo-items" := js "[{" ]} in
  fst (StorageService.load parse_fragment (js "nextId") JNull svc) = JNull /\
  fst (StorageService.load parse_fragment (js "items") JNull svc) = JNull /\
  fst (StorageService.load parse_fragment (js "done") JNull svc) = JTrue.
Proof.
  intros svc.
  split; [| split].
  - apply (proj1 (load_default_or_parsed parse_fragment svc (js "nextId")
                    JNull eq_refl)).
    left. vm_compute. reflexivity.
  - apply (proj1 (load_default_or_parsed parse_fragment svc (js "items")
                    JNull eq_refl)).
    right. exists (js "[{"). split; vm_compute; reflexivity.
  - apply (proj1 (proj2 (load_default_or_parsed parse_fragment svc (js "done")
                           JNull eq_refl)) (js "true") JTrue);
      vm_compute; reflexivity.
Defined.

Lemma load_empty_string_is_default_witness :
  StorageService.load parse_fragment (js "items") JEmptyArray
    (StorageService.mk (js "todo-") {[ js "todo-items" := [] ]})
  = (JEmptyArray, []).
Proof.
  apply (load_empty_string_is_default parse_fragment).
  vm_compute. reflexivity.
Defined.

(** ** Importing tasks *)

Section ImportTasks.
Context {S : Type} `{StorageOps S} {V : Type}.
Variable JSON_parse : jsstring -> option V.
Variable call_member : string -> V -> M S unit.

(** C3 fails on the code: [TodoModel] has no member named
    [importTasks].  When the chosen file parses and the user confirms,
    the call [this.model.importTasks(importedTasks)] throws, the [catch]
    clause reports a failed import, and the model is left as it was:
    the task sequence is not replaced, nothing is saved and no subscriber
    is called. *)
Theorem importTasks_is_missing (result : jsstring) (v : V) (m : TodoModel S) :
  JSON_parse result = Some v ->
  has_member "importTasks" = false /\
  handleFileImport_onload JSON_parse call_member result true m =
  ([ Confirm "Importing tasks will overwrite all current tasks. Are you sure?";
     ConsoleError "Failed to parse imported file:";
     Alert "Import failed: Invalid JSON file." ]%string,
   m, []).
Proof.
  intros Hv. split; [reflexivity |].
  unfold handleFileImport_onload. rewrite Hv. reflexivity.
Qed.

End ImportTasks.

Lemma importTasks_is_missing_witness :
  let m :=
    final [OpAddTodo (js "Buy milk") (js "2024-01-15T10:30:00.000Z")]
      (fst (constructor MockStorage.empty)) in
  has_member "importTasks" = false /\
  handleFileImport_onload parse_fragment (fun _ _ => clearAll) (js "[]") true m =
  ([ Confirm "Importing tasks will overwrite all current tasks. Are you sure?";
     ConsoleError "Failed to parse imported file:";
     Alert "Import failed: Invalid JSON file." ]%string,
   m, []).
Proof.
  intros m.
  apply (importTasks_is_missing parse_fragment (fun _ _ => clearAll)
           (js "[]") JEmptyArray m).
  vm_compute. reflexivity.
Defined.

(** ** The unit tests of the model, replayed on [MockStorage] *)

Section UnitTests.
Let now : jsstring := js "2024-01-15T10:30:00.000Z".
Let fresh : TodoModel MockStorage.t := fst (constructor MockStorage.empty).

Example test_add_with_correct_properties :
  todos (final [OpAddTodo (js "Test todo") now] fresh) =
  [Todo.mk 1 (js "Test todo") false now].
Proof. reflexivity. Qed.

Example test_not_add_empty_todos :
  todos (final [OpAddTodo (js "") now; OpAddTodo (js "   ") now] fresh) = [].
Proof. reflexivity. Qed.

Example test_increment_nextId :
  map Todo.id (todos (final [OpAddTodo (js "First") now;
                             OpAddTodo (js "Second") now] fresh)) = [1; 2].
Proof. reflexivity. Qed.

Example test_toggle_twice :
  map Todo.completed
    (todos (final [OpAddTodo (js "Test todo") now; OpToggleComplete 1;
                   OpToggleComplete 1] fresh)) = [false].
Proof. reflexivity. Qed.

Example test_delete_by_id :
  map Todo.text
    (todos (final [OpAddTodo (js "First") now; OpAddTodo (js "Second") now;
                   OpDeleteTodo 1] fresh)) = [js "Second"].
Proof. reflexivity. Qed.

Example test_update_trims :
  map Todo.text
    (todos (final [OpAddTodo (js "Original") now;
                   OpUpdateTodo 1 (js "  Updated  ")] fresh)) = [js "Updated"].
Proof. reflexivity. Qed.

Example test_not_update_with_empty_text :
  map Todo.text
    (todos (final [OpAddTodo (js "Original") now; OpUpdateTodo 1 (js "");
                   OpUpdateTodo 1 (js "   ")] fresh)) = [js "Original"].
Proof. reflexivity. Qed.

Example test_clear_completed :
  map Todo.text
    (todos (final [OpAddTodo (js "Todo 1") now; OpAddTodo (js "Todo 2") now;
                   OpAddTodo (js "Todo 3") now; OpToggleComplete 1;
                   OpToggleComplete 3; OpClearCompleted] fresh)) =
  [js "Todo 2"].
Proof. reflexivity. Qed.

Example test_notify_subscribers :
  calls (snd (fst (run [OpSubscribe 0%nat; OpAddTodo (js "Test") now;
                        OpToggleComplete 1; OpDeleteTodo 1] fresh))) =
  [0%nat; 0%nat; 0%nat].
Proof. reflexivity. Qed.

Example test_save_nextId_to_storage :
  MockStorage.nextId (storage (final [OpAddTodo (js "Test") now] fresh)) =
  Some 2.
Proof. reflexivity. Qed.

(** The scenario of the specification: one task added, toggled and
    deleted. *)
Example scenario_buy_milk :
  let m1 := final [OpAddTodo (js "Buy milk") now] fresh in
  let m2 := final [OpToggleComplete 1] m1 in
  let m3 := final [OpDeleteTodo 1] m2 in
  (length (todos m1), activeCount m1, completedCount m1) = (1, 1, 0)%nat /\
  (activeCount m2, completedCount m2) = (0, 1)%nat /\
  length (todos m3) = 0%nat.
Proof. repeat split. Qed.

End UnitTests.

(** * Further properties of the model *)

(** ** What a call does, as a whole *)

Section CallShape.
Context {S : Type} `{StorageOps S}.
Implicit Types (m : TodoModel S) (ops : list Op).

(** The three shapes of a call. *)
Lemma exec_shape op m :
  (exists l, op = OpSubscribe l /\
     exec op m =
     (tt, mkTodoModel (storage m) (todos m) (listeners m ++ [l]) (nextId m), []))
  \/ exec op m = (tt, m, [])
  \/ (exists ts n,
        (n = nextId m \/ n = nextId m + 1) /\
        exec op m =
        (tt, saved_with ts (mkTodoModel (storage m) (todos m) (listeners m) n),
         EvSave K_items ts :: EvSave K_nextId n :: map EvCall (listeners m))).
Proof.
  destruct op as [l | text now | id | id | id newText | |]; cbn [exec].
  - left. exists l. split; [reflexivity | apply subscribe_eq].
  - right. destruct (decide (trim text = [])) as [Ht | Ht].
    + left. now apply addTodo_rejected.
    + right. eexists _, (nextId m + 1). split; [now right |].
      now rewrite (addTodo_accepted _ _ _ Ht).
  - right. destruct (List.find (has_id id) (todos m)) as [t|] eqn:Hf.
    + right. eexists _, (nextId m). split; [now left |].
      now rewrite (toggleComplete_found _ _ _ Hf).
    + left. now apply toggleComplete_missing.
  - right. right. eexists _, (nextId m). split; [now left |].
    now rewrite deleteTodo_eq.
  - right. destruct (List.find (has_id id) (todos m)) as [t|] eqn:Hf.
    + destruct (decide (trim newText = [])) as [Ht | Ht].
      * left. apply updateTodo_rejected. now right.
      * right. eexists _, (nextId m). split; [now left |].
        now rewrite (updateTodo_accepted _ _ _ _ Hf Ht).
    + left. apply updateTodo_rejected. now left.
  - right. right. eexists _, (nextId m). split; [now left |].
    now rewrite clearCompleted_eq.
  - right. right. eexists _, (nextId m). split; [now left |].
    now rewrite clearAll_eq.
Qed.


End CallShape.

(** ** Restarting on what was saved *)

Section Restart.
Context {S : Type} `{StorageLaws S}.
Implicit Types (m : TodoModel S) (ops : list Op).

Lemma exec_in_sync op m : in_sync m -> in_sync (after (exec op) m).
Proof.
  intros Hm. unfold after.
  destruct (exec_shape op m)
    as [(l & _ & ->) | [-> | (ts & n & _ & ->)]]; cbn [fst snd].
  - exact Hm.
  - exact Hm.
  - apply (saved_with_loads ts
             (mkTodoModel (storage m) (todos m) (listeners m) n)).
Qed.

Lemma run_in_sync ops m : in_sync m -> in_sync (final ops m).
Proof.
  revert m. induction ops as [|op ops IH]; intros m Hm; [exact Hm |].
  rewrite final_cons. apply IH, exec_in_sync, Hm.
Qed.

(** X2. Whatever calls were made on a model built on a storage service
    whose writes take effect, a model built afterwards on the same
    service starts with the same task sequence and the same counter:
    nothing the model holds is lost on restart, and no call leaves the
    model ahead of the store. *)
Theorem restart_resumes (s : S) (ops : list Op) :
  let m := final ops (fst (constructor s)) in
  let m' := fst (constructor (storage m)) in
  todos m' = todos m /\ nextId m' = nextId m.
Proof.
  cbn zeta.
  assert (Hsync : in_sync (final ops (fst (constructor s)))).
  { apply run_in_sync. split; reflexivity. }
  rewrite (constructor_eq (storage _)). exact Hsync.
Qed.

End Restart.

Lemma restart_resumes_witness :
  let ops :=
    [ OpAddTodo (js "A") (js "2024-01-15T10:30:00.000Z");
      OpToggleComplete 7; OpAddTodo (js "  ") [];
      OpAddTodo (js "B") (js "2024-01-15T10:31:00.000Z"); OpDeleteTodo 1 ] in
  let m := final ops (fst (constructor MockStorage.empty)) in
  let m' := fst (constructor (storage m)) in
  todos m' = todos m /\ nextId m' = nextId m.
Proof. exact (restart_resumes MockStorage.empty _). Defined.

(** ** Invariants of the task sequence *)

Lemma update_found_ids (p : Todo.t -> bool) (f : Todo.t -> Todo.t)
    (l : list Todo.t) :
  (forall t, Todo.id (f t) = Todo.id t) ->
  map Todo.id (update_found p f l) = map Todo.id l.
Proof.
  intros Hf. induction l as [|t l IH]; [reflexivity |].
  cbn. destruct (p t); cbn; [now rewrite Hf | now rewrite IH].
Qed.

Lemma update_found_Forall (P : Todo.t -> Prop) (p : Todo.t -> bool)
    (f : Todo.t -> Todo.t) (l : list Todo.t) :
  (forall t, P t -> p t = true -> P (f t)) ->
  Forall P l -> Forall P (update_found p f l).
Proof.
  intros Hf. induction 1 as [|t l Ht Hl IH]; [constructor |].
  cbn. destruct (p t) eqn:Hp; constructor; auto.
Qed.

Lemma filter_Forall (P : Todo.t -> Prop) (q : Todo.t -> bool) (l : list Todo.t) :
  Forall P l -> Forall P (List.filter q l).
Proof.
  induction 1 as [|t l Ht Hl IH]; [constructor |].
  cbn. destruct (q t); [constructor |]; assumption.
Qed.

Lemma filter_sublist (q : Todo.t -> bool) (l : list Todo.t) :
  sublist (List.filter q l) l.
Proof.
  induction l as [|t l IH]; [constructor |].
  cbn. destruct (q t); [now apply sublist_skip | now apply sublist_cons].
Qed.

Lemma filter_ids_NoDup (q : Todo.t -> bool) (l : list Todo.t) :
  NoDup (map Todo.id l) -> NoDup (map Todo.id (List.filter q l)).
Proof.
  intros Hl. eapply sublist_NoDup; [exact Hl |].
  apply (fmap_sublist Todo.id), filter_sublist.
Qed.

Section Invariants.
Context {S : Type} `{StorageOps S}.
Implicit Types (m : TodoModel S) (ops : list Op).

Lemma exec_ids_unique op m :
  NoDup (map Todo.id (todos m)) ->
  Forall (fun t => Todo.id t < nextId m) (todos m) ->
  let m' := after (exec op) m in
  NoDup (map Todo.id (todos m')) /\
  Forall (fun t => Todo.id t < nextId m') (todos m').
Proof.
  intros Hnd Hlt. unfold after.
  destruct op as [l | text now | id | id | id newText | |]; cbn [exec].
  - rewrite subscribe_eq. now split.
  - destruct (decide (trim text = [])) as [Ht | Ht].
    + rewrite (addTodo_rejected _ _ _ Ht). now split.
    + rewrite (addTodo_accepted _ _ _ Ht). cbn. split.
      * rewrite map_app. cbn. apply NoDup_app. split; [exact Hnd |].
        split; [| apply NoDup_singleton].
        intros i Hi Hi'. apply list_elem_of_singleton in Hi'. subst i.
        apply list_elem_of_fmap in Hi as (t & Ht' & Hin).
        rewrite Forall_forall in Hlt. specialize (Hlt _ Hin). lia.
      * apply Forall_app. split.
        -- eapply Forall_impl; [exact Hlt |]. cbn. intros t Ht'. lia.
        -- constructor; [cbn; lia | constructor].
  - destruct (List.find (has_id id) (todos m)) as [t|] eqn:Hf.
    + rewrite (toggleComplete_found _ _ _ Hf). cbn. split.
      * now rewrite update_found_ids.
      * apply update_found_Forall; [| exact Hlt]. now intros x Hx _.
    + rewrite (toggleComplete_missing _ _ Hf). now split.
  - rewrite deleteTodo_eq. cbn. split.
    + now apply filter_ids_NoDup.
    + now apply filter_Forall.
  - destruct (List.find (has_id id) (todos m)) as [t|] eqn:Hf.
    + destruct (decide (trim newText = [])) as [Ht | Ht].
      * rewrite updateTodo_rejected; [now split | now right].
      * rewrite (updateTodo_accepted _ _ _ _ Hf Ht). cbn. split.
        -- now rewrite update_found_ids.
        -- apply update_found_Forall; [| exact Hlt]. now intros x Hx _.
    + rewrite updateTodo_rejected; [now split | now left].
  - rewrite clearCompleted_eq. cbn. split.
    + now apply filter_ids_NoDup.
    + now apply filter_Forall.
  - rewrite clearAll_eq. cbn. split; constructor.
Qed.

Lemma run_ids_unique m ops :
  NoDup (map Todo.id (todos m)) ->
  Forall (fun t => Todo.id t < nextId m) (todos m) ->
  NoDup (map Todo.id (todos (final ops m))) /\
  Forall (fun t => Todo.id t < nextId (final ops m)) (todos (final ops m)).
Proof.
  revert m. induction ops as [|op ops IH]; intros m Hnd Hlt; [now split |].
  rewrite final_cons.
  destruct (exec_ids_unique op m Hnd Hlt) as [Hnd' Hlt']. now apply IH.
Qed.

(** X3. When no two tasks of a model share an id and every id is below
    the counter (as in a model built on an empty store), and the
    counter stays in the range where JavaScript's [nextId++] is exact
    during the run, this stays so whatever calls are made: an id names
    at most one task, every id is below the counter, and the counter is
    still in the exact range. *)
Theorem ids_stay_unique m ops :
  increments_exact m (length ops) ->
  NoDup (map Todo.id (todos m)) ->
  Forall (fun t => Todo.id t < nextId m) (todos m) ->
  NoDup (map Todo.id (todos (final ops m))) /\
  Forall (fun t => Todo.id t < nextId (final ops m)) (todos (final ops m)) /\
  - 2 ^ 53 <= nextId (final ops m) <= 2 ^ 53.
Proof.
  intros [Hlow Hhigh] Hnd Hlt.
  destruct (run_ids_unique m ops Hnd Hlt) as [Hnd' Hlt'].
  split; [exact Hnd' |]. split; [exact Hlt' |].
  pose proof (run_counter_le ops m) as Hle.
  destruct (run_issued ops m) as (Hge & _ & _). lia.
Qed.

End Invariants.

Lemma ids_stay_unique_witness :
  let ops :=
    [ OpAddTodo (js "A") []; OpAddTodo (js "B") []; OpDeleteTodo 1;
      OpAddTodo (js "C") []; OpToggleComplete 2 ] in
  let m := final ops (fst (constructor MockStorage.empty)) in
  NoDup (map Todo.id (todos m)) /\
  Forall (fun t => Todo.id t < nextId m) (todos m) /\
  - 2 ^ 53 <= nextId m <= 2 ^ 53.
Proof.
  apply (ids_stay_unique (fst (constructor MockStorage.empty))).
  - split; vm_compute; discriminate.
  - cbn. constructor.
  - cbn. constructor.
Defined.

(** ** Trimmed texts *)

Lemma trimStart_head (s : jsstring) :
  match trimStart s with [] => True | c :: _ => is_white_space c = false end.
Proof.
  induction s as [|c s IH]; [exact I |].
  cbn [trimStart]. destruct (is_white_space c) eqn:Hc; [exact IH | exact Hc].
Qed.

Lemma trimStart_fixed (c : N) (s : jsstring) :
  is_white_space c = false -> trimStart (c :: s) = c :: s.
Proof. intros Hc. cbn [trimStart]. now rewrite Hc. Qed.

Lemma trimStart_idempotent (s : jsstring) : trimStart (trimStart s) = trimStart s.
Proof.
  pose proof (trimStart_head s) as Hs.
  destruct (trimStart s) as [|c u]; [reflexivity | now apply trimStart_fixed].
Qed.

Lemma trimStart_before_black (l : jsstring) (c : N) (r : jsstring) :
  is_white_space c = false ->
  trimStart (l ++ c :: r) = trimStart l ++ c :: r.
Proof.
  intros Hc. induction l as [|x l IH]; cbn [app trimStart].
  - now rewrite Hc.
  - destruct (is_white_space x); [exact IH | reflexivity].
Qed.

Lemma trimEnd_cons_black (c : N) (s : jsstring) :
  is_white_space c = false -> trimEnd (c :: s) = c :: trimEnd s.
Proof.
  intros Hc. unfold trimEnd. cbn [rev].
  rewrite (trimStart_before_black (rev s) c [] Hc), rev_app_distr.
  reflexivity.
Qed.

Lemma trimEnd_idempotent (s : jsstring) : trimEnd (trimEnd s) = trimEnd s.
Proof. unfold trimEnd. now rewrite rev_involutive, trimStart_idempotent. Qed.

(** [trim] leaves a trimmed string as it is. *)
Lemma trim_idempotent (s : jsstring) : trim (trim s) = trim s.
Proof.
  unfold trim. pose proof (trimStart_head s) as Hs.
  destruct (trimStart s) as [|c u]; [reflexivity |].
  rewrite (trimEnd_cons_black c u Hs).
  rewrite (trimStart_fixed c _ Hs), <- (trimEnd_cons_black c u Hs).
  apply trimEnd_idempotent.
Qed.

Section TrimmedTexts.
Context {S : Type} `{StorageOps S}.
Implicit Types (m : TodoModel S) (ops : list Op).

Lemma exec_texts_trimmed op m :
  Forall (fun t => Todo.text t <> [] /\ trim (Todo.text t) = Todo.text t)
    (todos m) ->
  Forall (fun t => Todo.text t <> [] /\ trim (Todo.text t) = Todo.text t)
    (todos (after (exec op) m)).
Proof.
  intros Hm. unfold after.
  destruct op as [l | text now | id | id | id newText | |]; cbn [exec].
  - now rewrite subscribe_eq.
  - destruct (decide (trim text = [])) as [Ht | Ht].
    + now rewrite (addTodo_rejected _ _ _ Ht).
    + rewrite (addTodo_accepted _ _ _ Ht). cbn. apply Forall_app. split.
      * exact Hm.
      * constructor; [| constructor]. cbn. split; [exact Ht |].
        apply trim_idempotent.
  - destruct (List.find (has_id id) (todos m)) as [t|] eqn:Hf.
    + rewrite (toggleComplete_found _ _ _ Hf). cbn.
      apply update_found_Forall; [| exact Hm]. now intros x Hx _.
    + now rewrite (toggleComplete_missing _ _ Hf).
  - rewrite deleteTodo_eq. cbn. now apply filter_Forall.
  - destruct (List.find (has_id id) (todos m)) as [t|] eqn:Hf.
    + destruct (decide (trim newText = [])) as [Ht | Ht].
      * rewrite updateTodo_rejected; [exact Hm | now right].
      * rewrite (updateTodo_accepted _ _ _ _ Hf Ht). cbn.
        apply update_found_Forall; [| exact Hm].
        intros x _ _. cbn. split; [exact Ht | apply trim_idempotent].
    + rewrite updateTodo_rejected; [exact Hm | now left].
  - rewrite clearCompleted_eq. cbn. now apply filter_Forall.
  - rewrite clearAll_eq. cbn. constructor.
Qed.

(** X4. When the text of every task is non-empty and trimmed (no
    white space at either end), this stays so whatever calls are made:
    neither [addTodo] nor [updateTodo] ever stores an empty text or one
    with leading or trailing white space. *)
Theorem texts_stay_trimmed m ops :
  Forall (fun t => Todo.text t <> [] /\ trim (Todo.text t) = Todo.text t)
    (todos m) ->
  Forall (fun t => Todo.text t <> [] /\ trim (Todo.text t) = Todo.text t)
    (todos (final ops m)).
Proof.
  revert m. induction ops as [|op ops IH]; intros m Hm; [exact Hm |].
  rewrite final_cons. apply IH, exec_texts_trimmed, Hm.
Qed.

End TrimmedTexts.

Lemma texts_stay_trimmed_witness :
  let ops :=
    [ OpAddTodo (js "  walk the dog ") []; OpAddTodo (js "   ") [];
      OpUpdateTodo 1 (js " walk  the cat  "); OpUpdateTodo 1 (js "") ] in
  Forall (fun t => Todo.text t <> [] /\ trim (Todo.text t) = Todo.text t)
    (todos (final ops (fst (constructor MockStorage.empty)))).
Proof.
  apply (texts_stay_trimmed (fst (constructor MockStorage.empty))).
  cbn. constructor.
Defined.

(** ** The single operations *)

Lemma find_first_match (p : Todo.t -> bool) (l1 l2 : list Todo.t) (t : Todo.t) :
  Forall (fun x => p x = false) l1 -> p t = true ->
  List.find p (l1 ++ t :: l2) = Some t /\
  forall f, update_found p f (l1 ++ t :: l2) = l1 ++ f t :: l2.
Proof.
  intros Hl1 Ht. induction Hl1 as [|x l1 Hx Hl1 IH]; cbn.
  - rewrite Ht. split; [reflexivity |]. intros f. reflexivity.
  - rewrite Hx. destruct IH as [IHf IHu]. split; [exact IHf |].
    intros f. now rewrite IHu.
Qed.

Lemma filter_all (q : Todo.t -> bool) (l : list Todo.t) :
  Forall (fun t => q t = true) l -> List.filter q l = l.
Proof.
  induction 1 as [|t l Ht Hl IH]; [reflexivity |].
  cbn. rewrite Ht. now rewrite IH.
Qed.

Lemma filter_filter_same (q : Todo.t -> bool) (l : list Todo.t) :
  List.filter q (List.filter q l) = List.filter q l.
Proof.
  apply filter_all. induction l as [|t l IH]; [constructor |].
  cbn. destruct (q t) eqn:Hq; [constructor |]; assumption.
Qed.

Section Operations.
Context {S : Type} `{StorageOps S}.
Implicit Types (m : TodoModel S) (ops : list Op).

(** X5. [toggleComplete] is its own inverse: toggling the same id twice
    in a row leaves the task sequence, the counter and the subscribers
    exactly as they were, whether or not a task carries the id. *)
Theorem toggleComplete_twice m (id : Z) :
  let m2 := after (toggleComplete id) (after (toggleComplete id) m) in
  todos m2 = todos m /\ nextId m2 = nextId m /\ listeners m2 = listeners m.
Proof.
  cbn zeta.
  destruct (List.find (has_id id) (todos m)) as [t|] eqn:Hf.
  - destruct (find_update_found _ _ _ Hf) as (l1 & l2 & Hl & Hl1 & Ht & Hup).
    set (t' := Todo.set_completed (negb (Todo.completed t)) t).
    assert (Ht' : has_id id t' = true) by exact Ht.
    destruct (find_first_match (has_id id) l1 l2 t' Hl1 Ht') as [Hf' Hup'].
    assert (E1 : after (toggleComplete id) m = saved_with (l1 ++ t' :: l2) m).
    { unfold after. rewrite (toggleComplete_found _ _ _ Hf). cbn [fst snd].
      now rewrite Hup. }
    assert (E2 : after (toggleComplete id) (saved_with (l1 ++ t' :: l2) m) =
                 saved_with (l1 ++ t :: l2) (saved_with (l1 ++ t' :: l2) m)).
    { unfold after. rewrite (toggleComplete_found id _ t') by exact Hf'.
      cbn [fst snd saved_with todos]. rewrite Hup'. subst t'. cbn.
      rewrite negb_involutive. now destruct t. }
    rewrite E1, E2, Hl. repeat split.
  - assert (E : after (toggleComplete id) m = m).
    { unfold after. now rewrite (toggleComplete_missing _ _ Hf). }
    rewrite !E. repeat split.
Qed.

(** X6. After [deleteTodo(id)] the sequence holds exactly the tasks it
    held whose id is not [id], in their former order; the counter and
    the subscribers are unchanged.  Deleting an id that no task carries
    leaves the sequence as it was, and deleting the same id again
    changes nothing more. *)
Theorem deleteTodo_removes_exactly m (id : Z) :
  let m' := after (deleteTodo id) m in
  (forall t, In t (todos m') <-> In t (todos m) /\ Todo.id t <> id) /\
  sublist (todos m') (todos m) /\
  nextId m' = nextId m /\
  listeners m' = listeners m /\
  (existsb (has_id id) (todos m) = false -> todos m' = todos m) /\
  todos (after (deleteTodo id) m') = todos m'.
Proof.
  cbn zeta. unfold after. rewrite !deleteTodo_eq. cbn [fst snd saved_with todos nextId listeners].
  split; [| split; [| split; [| split; [| split]]]].
  - intros t. rewrite filter_In, negb_true_iff, has_id_false. tauto.
  - apply filter_sublist.
  - reflexivity.
  - reflexivity.
  - intros Hnone. apply filter_all. apply Forall_forall. intros t Hin.
    apply list_elem_of_In in Hin.
    destruct (has_id id t) eqn:Ht; [| reflexivity].
    assert (existsb (has_id id) (todos m) = true) as Hex
      by (apply existsb_exists; eauto).
    congruence.
  - apply filter_filter_same.
Qed.

Lemma updateTodo_first_match m (id : Z) (newText : jsstring) :
  (exists t, In t (todos m) /\ Todo.id t = id) -> trim newText <> [] ->
  exists l1 t l2,
    todos m = l1 ++ t :: l2 /\
    Forall (fun x => Todo.id x <> id) l1 /\
    Todo.id t = id /\
    let m' := after (updateTodo id newText) m in
    todos m' =
      l1 ++ Todo.mk (Todo.id t) (trim newText) (Todo.completed t)
              (Todo.createdAt t) :: l2 /\
    nextId m' = nextId m /\
    listeners m' = listeners m.
Proof.
  intros Hin Htext. apply find_has_id_present in Hin as [t Hf].
  destruct (find_update_found _ _ _ Hf) as (l1 & l2 & Hl & Hl1 & Ht & Hup).
  exists l1, t, l2.
  split; [exact Hl |].
  split.
  { eapply Forall_impl; [exact Hl1 |]. intros x Hx. now apply has_id_false. }
  split; [now apply has_id_true |].
  unfold after. rewrite (updateTodo_accepted _ _ _ _ Hf Htext). cbn.
  rewrite Hup. repeat split.
Qed.

Lemma deleteTodo_members m (id : Z) (t : Todo.t) :
  In t (todos (after (deleteTodo id) m)) <->
  In t (todos m) /\ Todo.id t <> id.
Proof.
  unfold after. rewrite deleteTodo_eq. cbn [fst snd saved_with todos].
  rewrite filter_In, negb_true_iff, has_id_false. tauto.
Qed.

(** X7. When a task carries the id and the new text trims to a
    non-empty string, [updateTodo(id, newText)] replaces the text of the
    first task with that id by the trimmed text and changes nothing
    else: the id, the completed flag and the creation time of that task,
    every other task, the order, the counter and the subscribers are as
    before.  When no task carries the id or the new text trims to the
    empty string, the call does nothing at all. *)
Theorem updateTodo_frame m (id : Z) (newText : jsstring) :
  ((exists t, In t (todos m) /\ Todo.id t = id) -> trim newText <> [] ->
   exists l1 t l2,
     todos m = l1 ++ t :: l2 /\
     Forall (fun x => Todo.id x <> id) l1 /\
     Todo.id t = id /\
     let m' := after (updateTodo id newText) m in
     todos m' =
       l1 ++ Todo.mk (Todo.id t) (trim newText) (Todo.completed t)
               (Todo.createdAt t) :: l2 /\
     nextId m' = nextId m /\
     listeners m' = listeners m) /\
  ((forall t, In t (todos m) -> Todo.id t <> id) \/ trim newText = [] ->
   updateTodo id newText m = (tt, m, [])).
Proof.
  split.
  - apply updateTodo_first_match.
  - intros [Hnone | Htext]; apply updateTodo_rejected; [left | now right].
    destruct (List.find (has_id id) (todos m)) as [t|] eqn:Hf; [| reflexivity].
    destruct (find_update_found _ _ _ Hf) as (l1 & l2 & Hl & _ & Ht & _).
    apply has_id_true in Ht. elim (Hnone t); [| exact Ht].
    rewrite Hl. apply in_or_app. right. now left.
Qed.

(** X8. After [clearCompleted()] no completed task is left
    ([completedCount] is 0) and the active tasks are all there, in their
    former order ([activeCount] is unchanged); the counter and the
    subscribers are unchanged.  When no task was completed the sequence
    is as it was. *)
Theorem clearCompleted_keeps_active m :
  let m' := after clearCompleted m in
  completedCount m' = 0%nat /\
  activeCount m' = activeCount m /\
  (forall t, In t (todos m') <-> In t (todos m) /\ Todo.completed t = false) /\
  sublist (todos m') (todos m) /\
  nextId m' = nextId m /\
  listeners m' = listeners m /\
  (completedCount m = 0%nat -> todos m' = todos m).
Proof.
  cbn zeta. unfold after. rewrite clearCompleted_eq.
  cbn [fst snd]. unfold completedCount, activeCount.
  cbn [saved_with todos nextId listeners].
  assert (Hnone : forall l : list Todo.t,
            List.filter (fun t => Todo.completed t)
              (List.filter (fun t => negb (Todo.completed t)) l) = []).
  { induction l as [|t l IH]; [reflexivity |].
    cbn. destruct (Todo.completed t) eqn:Hc; cbn; [exact IH |].
    now rewrite Hc. }
  split; [now rewrite Hnone |].
  split; [now rewrite filter_filter_same |].
  split; [intros t; rewrite filter_In, negb_true_iff; tauto |].
  split; [apply filter_sublist |].
  split; [reflexivity |]. split; [reflexivity |].
  intros Hzero. apply filter_all.
  induction (todos m) as [|t l IH]; [constructor |].
  cbn in Hzero. destruct (Todo.completed t) eqn:Hc; [discriminate |].
  constructor; [now rewrite Hc | now apply IH].
Qed.

(** X9. [clearAll()] empties the sequence and does not reset the
    counter: the first task added afterwards gets the id the counter
    had before the sequence was cleared, not 1; and where JavaScript's
    [nextId++] is exact the counter is then that id plus one. *)
Theorem clearAll_keeps_the_counter m (text now : jsstring) :
  trim text <> [] ->
  let m1 := after clearAll m in
  let m2 := after (addTodo text now) m1 in
  todos m1 = [] /\
  nextId m1 = nextId m /\
  todos m2 = [Todo.mk (nextId m) (trim text) false now] /\
  (increments_exact m 1 -> nextId m2 = nextId m + 1).
Proof.
  intros Ht. cbn zeta. unfold after. rewrite clearAll_eq. cbn [fst snd].
  rewrite (addTodo_accepted _ _ _ Ht). repeat split.
Qed.

End Operations.

Lemma updateTodo_frame_witness :
  let a := Todo.mk 1 (js "A") true (js "2024-01-15T10:30:00.000Z") in
  let m := mkTodoModel MockStorage.empty [a] [] 2 in
  (exists l1 t l2,
     todos m = l1 ++ t :: l2 /\
     Forall (fun x => Todo.id x <> 1) l1 /\
     Todo.id t = 1 /\
     let m' := after (updateTodo 1 (js "  X  ")) m in
     todos m' =
       l1 ++ Todo.mk (Todo.id t) (trim (js "  X  ")) (Todo.completed t)
               (Todo.createdAt t) :: l2 /\
     nextId m' = nextId m /\
     listeners m' = listeners m) /\
  updateTodo 1 (js "   ") m = (tt, m, []).
Proof.
  intros a m. split.
  - apply (proj1 (updateTodo_frame m 1 (js "  X  "))).
    + exists a. split; [now left | reflexivity].
    + vm_compute. discriminate.
  - apply (proj2 (updateTodo_frame m 1 (js "   "))). right. reflexivity.
Defined.

Lemma deleteTodo_removes_exactly_witness :
  let a := Todo.mk 1 (js "A") true (js "2024-01-15T10:30:00.000Z") in
  let m := mkTodoModel MockStorage.empty [a] [] 2 in
  todos (after (deleteTodo 999) m) = todos m.
Proof.
  intros a m.
  apply (proj1 (proj2 (proj2 (proj2 (proj2
           (deleteTodo_removes_exactly m 999)))))).
  reflexivity.
Defined.

Lemma clearCompleted_keeps_active_witness :
  let a := Todo.mk 1 (js "A") false (js "2024-01-15T10:30:00.000Z") in
  let m := mkTodoModel MockStorage.empty [a] [] 2 in
  todos (after clearCompleted m) = todos m.
Proof.
  intros a m.
  apply (proj2 (proj2 (proj2 (proj2 (proj2 (proj2
           (clearCompleted_keeps_active m))))))).
  reflexivity.
Defined.

Lemma clearAll_keeps_the_counter_witness :
  let a := Todo.mk 1 (js "A") false (js "2024-01-15T10:30:00.000Z") in
  let m := mkTodoModel MockStorage.empty [a] [] 2 in
  let m1 := after clearAll m in
  let m2 := after (addTodo (js "B") (js "2024-01-15T10:31:00.000Z")) m1 in
  todos m1 = [] /\
  nextId m1 = 2 /\
  todos m2 = [Todo.mk 2 (js "B") false (js "2024-01-15T10:31:00.000Z")] /\
  nextId m2 = 3.
Proof.
  intros a m.
  pose proof (clearAll_keeps_the_counter m (js "B")
                (js "2024-01-15T10:31:00.000Z")
                ltac:(vm_compute; discriminate)) as (H1 & H2 & H3 & H4).
  split; [exact H1 |]. split; [exact H2 |]. split; [exact H3 |].
  apply H4. split; vm_compute; discriminate.
Defined.

(** * Further properties of the storage services *)

(** X10. [MockStorage] is a map from keys to values with a default:
    a load returns what was last saved under the key, a save or a
    remove leaves the other keys as they were, and after a remove of
    the key, after a clear, or on the empty store, a load returns the
    default value. *)
Theorem MockStorage_is_a_map_with_default (d : MockStorage.t) :
  (forall (k : Key) (v dflt : Val k),
     MockStorage.load k dflt (MockStorage.save k v d) = v) /\
  (forall (k k' : Key) (v : Val k) (dflt : Val k'),
     k <> k' ->
     MockStorage.load k' dflt (MockStorage.save k v d) =
     MockStorage.load k' dflt d) /\
  (forall (k : Key) (dflt : Val k),
     MockStorage.load k dflt (MockStorage.remove k d) = dflt) /\
  (forall (k k' : Key) (dflt : Val k'),
     k <> k' ->
     MockStorage.load k' dflt (MockStorage.remove k d) =
     MockStorage.load k' dflt d) /\
  (forall (k : Key) (dflt : Val k),
     MockStorage.load k dflt (MockStorage.clear d) = dflt) /\
  (forall (k : Key) (dflt : Val k),
     MockStorage.load k dflt MockStorage.empty = dflt).
Proof.
  repeat split.
  - intros k v dflt. destruct k; reflexivity.
  - intros k k' v dflt Hne. destruct k, k'; try reflexivity; now elim Hne.
  - intros k dflt. destruct k; reflexivity.
  - intros k k' dflt Hne. destruct k, k'; try reflexivity; now elim Hne.
  - intros k dflt. destruct k; reflexivity.
  - intros k dflt. destruct k; reflexivity.
Qed.

Lemma MockStorage_is_a_map_with_default_witness :
  let d :=
    MockStorage.mk (Some [Todo.mk 1 (js "Existing todo") false []]) (Some 2)
      None in
  MockStorage.load K_items [] (MockStorage.save K_nextId 3 d) =
    [Todo.mk 1 (js "Existing todo") false []] /\
  MockStorage.load K_items [] (MockStorage.remove K_nextId d) =
    [Todo.mk 1 (js "Existing todo") false []].
Proof.
  intros d.
  pose proof (MockStorage_is_a_map_with_default d) as (_ & Hs & _ & Hr & _).
  split.
  - exact (Hs K_nextId K_items 3 [] ltac:(discriminate)).
  - exact (Hr K_nextId K_items [] ltac:(discriminate)).
Defined.

(** ** [StorageService] *)

Lemma startsWith_app (p key : jsstring) : startsWith (p ++ key) p = true.
Proof.
  induction p as [|c p IH]; [now destruct key |].
  cbn. now rewrite N.eqb_refl, IH.
Qed.

Lemma startsWith_prefix (key p : jsstring) :
  startsWith key p = true <-> exists rest, key = p ++ rest.
Proof.
  revert key. induction p as [|c p IH]; intros key.
  - split; [intros _; now exists key | now destruct key].
  - destruct key as [|d key]; cbn.
    + split; [discriminate | intros [rest Hrest]; discriminate].
    + rewrite andb_true_iff, N.eqb_eq, IH. split.
      * intros [-> [rest ->]]. now exists rest.
      * intros [rest [= -> ->]]. split; [reflexivity | now exists rest].
Qed.

Lemma storage_keys_spec (st : gmap jsstring jsstring) (k : jsstring) :
  k ∈ storage_keys st <-> exists v, StorageService.getItem k st = Some v.
Proof.
  unfold storage_keys, StorageService.getItem.
  change (map fst (map_to_list st)) with (fst <$> map_to_list st).
  rewrite list_elem_of_fmap. split.
  - intros ([k' v] & -> & Hin). exists v.
    now apply elem_of_map_to_list in Hin.
  - intros [v Hv]. exists (k, v). split; [reflexivity |].
    now apply elem_of_map_to_list.
Qed.

Lemma getItem_remove_all (ks : list jsstring) (st : gmap jsstring jsstring)
    (k : jsstring) :
  StorageService.getItem k (fold_left (fun st key => removeItem key st) ks st) =
  if decide (k ∈ ks) then None else StorageService.getItem k st.
Proof.
  unfold StorageService.getItem, removeItem.
  revert st. induction ks as [|x ks IH]; intros st; cbn [fold_left].
  - destruct (decide (k ∈ [])) as [Hin |]; [| reflexivity].
    now apply not_elem_of_nil in Hin.
  - rewrite IH. destruct (decide (k ∈ ks)) as [Hin | Hout].
    + destruct (decide (k ∈ x :: ks)) as [_ | Hn]; [reflexivity |].
      elim Hn. now apply list_elem_of_further.
    + destruct (decide (x = k)) as [-> | Hne].
      * rewrite lookup_delete_eq.
        destruct (decide (k ∈ k :: ks)) as [_ | Hn]; [reflexivity |].
        elim Hn. apply list_elem_of_here.
      * rewrite lookup_delete_ne by exact Hne.
        destruct (decide (k ∈ x :: ks)) as [Hin | _]; [| reflexivity].
        apply elem_of_cons in Hin as [-> | Hin]; contradiction.
Qed.

Section StorageServiceRoundTrip.
Context {V : Type}.
Variable JSON_stringify : V -> option jsstring.
Variable JSON_parse : jsstring -> option V.
Variable setItem_throws : gmap jsstring jsstring -> jsstring -> jsstring -> bool.
Implicit Types (svc : StorageService.t) (key : jsstring) (data : V).

Lemma load_by_item svc svc' key key' (d : V) :
  StorageService.getItem (StorageService.prefix svc' ++ key')
    (StorageService.storage svc') =
  StorageService.getItem (StorageService.prefix svc ++ key)
    (StorageService.storage svc) ->
  fst (StorageService.load JSON_parse key' d svc') =
  fst (StorageService.load JSON_parse key d svc).
Proof.
  intros Hitem. unfold StorageService.load. rewrite Hitem.
  destruct (StorageService.getItem (StorageService.prefix svc ++ key)
              (StorageService.storage svc)) as [item|]; [| reflexivity].
  destruct (truthy item); [| reflexivity].
  now destruct (JSON_parse item).
Qed.

(** X11. Saving through [StorageService] and loading back.  When
    [JSON.stringify] gives a non-empty text that [JSON.parse] reads back
    as the value, and the store accepts the write, [save] logs nothing,
    a later [load] of the key returns the value, and a load of any other
    key returns what it returned before.  When [JSON.stringify] throws
    or the store refuses the write, [save] leaves the service untouched
    and logs one failure: the caller sees no error. *)
Theorem StorageService_save_then_load svc key data :
  (forall text,
     JSON_stringify data = Some text -> text <> [] ->
     JSON_parse text = Some data ->
     setItem_throws (StorageService.storage svc)
       (StorageService.prefix svc ++ key) text = false ->
     let saved := StorageService_save JSON_stringify setItem_throws key data svc in
     snd saved = [] /\
     StorageService.prefix (fst saved) = StorageService.prefix svc /\
     (forall d, StorageService.load JSON_parse key d (fst saved) = (data, [])) /\
     (forall key' d, key' <> key ->
        fst (StorageService.load JSON_parse key' d (fst saved)) =
        fst (StorageService.load JSON_parse key' d svc))) /\
  (JSON_stringify data = None \/
   (exists text, JSON_stringify data = Some text /\
      setItem_throws (StorageService.storage svc)
        (StorageService.prefix svc ++ key) text = true) ->
   StorageService_save JSON_stringify setItem_throws key data svc =
   (svc, [FailedToSave key])).
Proof.
  split.
  - intros text Htext Hne Hparse Hok. cbn zeta.
    unfold StorageService_save, setItem. rewrite Htext, Hok. cbn [fst snd].
    split; [reflexivity |]. split; [reflexivity |]. split.
    + intros d. unfold StorageService.load, StorageService.getItem. cbn.
      rewrite lookup_insert_eq.
      destruct text as [|c text]; [now elim Hne |].
      cbn [truthy]. now rewrite Hparse.
    + intros key' d Hkey. apply load_by_item.
      unfold StorageService.getItem. cbn.
      apply lookup_insert_ne. intros Heq. apply Hkey.
      now apply app_inv_head in Heq.
  - unfold StorageService_save, setItem.
    intros [-> | (text & -> & ->)]; reflexivity.
Qed.

(** X12. After [remove(key)] a load of the key returns the default value
    and logs nothing, and a load of any other key returns what it
    returned before. *)
Theorem StorageService_remove_then_load svc key :
  (forall d,
     StorageService.load JSON_parse key d (StorageService_remove key svc) =
     (d, [])) /\
  (forall key' d, key' <> key ->
     fst (StorageService.load JSON_parse key' d (StorageService_remove key svc)) =
     fst (StorageService.load JSON_parse key' d svc)).
Proof.
  split.
  - intros d. unfold StorageService.load, StorageService.getItem,
      StorageService_remove, removeItem. cbn.
    now rewrite lookup_delete_eq.
  - intros key' d Hkey. apply load_by_item.
    unfold StorageService.getItem, StorageService_remove, removeItem. cbn.
    apply lookup_delete_ne. intros Heq. apply Hkey.
    now apply app_inv_head in Heq.
Qed.

(** X13. [clear()] removes from the store exactly the non-empty keys
    that start with the prefix of the service, whoever wrote them, and
    leaves every other key with its content.  So after it a load of any
    key returns the default value, unless prefix and key are both empty:
    the empty key is skipped by the truthiness test and survives. *)
Theorem StorageService_clear_removes_prefixed svc :
  let cleared := StorageService_clear svc in
  StorageService.prefix cleared = StorageService.prefix svc /\
  (forall k,
     StorageService.getItem k (StorageService.storage cleared) =
     if truthy k && startsWith k (StorageService.prefix svc) then None
     else StorageService.getItem k (StorageService.storage svc)) /\
  (forall key d,
     StorageService.prefix svc ++ key <> [] ->
     StorageService.load JSON_parse key d cleared = (d, [])).
Proof.
  cbn zeta.
  assert (Hget : forall k,
     StorageService.getItem k (StorageService.storage (StorageService_clear svc)) =
     if truthy k && startsWith k (StorageService.prefix svc) then None
     else StorageService.getItem k (StorageService.storage svc)).
  { intros k. unfold StorageService_clear. cbn [StorageService.storage].
    rewrite getItem_remove_all.
    destruct (truthy k && startsWith k (StorageService.prefix svc)) eqn:Hp.
    - destruct (decide _) as [_ | Hout]; [reflexivity |].
      destruct (StorageService.getItem k (StorageService.storage svc))
        as [v|] eqn:Hk; [| reflexivity].
      elim Hout. apply list_elem_of_In, filter_In. split; [| exact Hp].
      apply list_elem_of_In, storage_keys_spec. now exists v.
    - destruct (decide _) as [Hin | _]; [| reflexivity].
      apply list_elem_of_In, filter_In in Hin as [_ Hp']. congruence. }
  split; [reflexivity |]. split; [exact Hget |].
  intros key d Hne. unfold StorageService.load.
  change (StorageService.prefix (StorageService_clear svc))
    with (StorageService.prefix svc).
  rewrite Hget, startsWith_app.
  destruct (StorageService.prefix svc ++ key); [now elim Hne | reflexivity].
Qed.

End StorageServiceRoundTrip.

Lemma StorageService_save_then_load_witness :
  let svc := StorageService.mk (js "todo-") {[ js "todo-items" := js "[]" ]} in
  let never := fun (_ : gmap jsstring jsstring) (_ _ : jsstring) => false in
  let full := fun (_ : gmap jsstring jsstring) (_ _ : jsstring) => true in
  StorageService.load parse_fragment (js "done") JNull
    (fst (StorageService_save print_fragment never (js "done") JTrue svc))
  = (JTrue, []) /\
  StorageService_save print_fragment full (js "done") JTrue svc
  = (svc, [FailedToSave (js "done")]).
Proof.
  intros svc never full. split.
  - apply (proj1 (StorageService_save_then_load print_fragment parse_fragment
                    never svc (js "done") JTrue) (js "true")).
    + reflexivity.
    + vm_compute. discriminate.
    + vm_compute. reflexivity.
    + reflexivity.
  - apply (proj2 (StorageService_save_then_load print_fragment parse_fragment
                    full svc (js "done") JTrue)).
    right. exists (js "true"). split; reflexivity.
Defined.

Lemma StorageService_remove_then_load_witness :
  let svc :=
    StorageService.mk (js "todo-")
      {[ js "todo-items" := js "[]"; js "todo-done" := js "true" ]} in
  fst (StorageService.load parse_fragment (js "items") JNull
         (StorageService_remove (js "done") svc)) =
  fst (StorageService.load parse_fragment (js "items") JNull svc).
Proof.
  intros svc.
  apply (proj2 (StorageService_remove_then_load parse_fragment svc (js "done"))).
  vm_compute. discriminate.
Defined.

Lemma StorageService_clear_removes_prefixed_witness :
  let svc :=
    StorageService.mk (js "todo-")
      {[ js "todo-items" := js "[]"; js "other" := js "true" ]} in
  StorageService.load parse_fragment (js "items") JNull (StorageService_clear svc)
  = (JNull, []).
Proof.
  intros svc.
  apply (proj2 (proj2 (StorageService_clear_removes_prefixed parse_fragment svc))).
  vm_compute. discriminate.
Defined.

(** [clear()] on a store shared with another application, and the empty
    key under the empty prefix. *)
Example clear_keeps_foreign_keys :
  StorageService.storage
    (StorageService_clear
       (StorageService.mk (js "todo-")
          {[ js "todo-items" := js "[]"; js "todo-theme" := js "dark";
             js "other" := js "true" ]}))
  = {[ js "other" := js "true" ]}.
Proof. vm_compute. reflexivity. Qed.

Example clear_skips_the_empty_key :
  StorageService.storage
    (StorageService_clear
       (StorageService.mk [] {[ [] := js "null"; js "a" := js "true" ]}))
  = {[ [] := js "null" ]}.
Proof. vm_compute. reflexivity. Qed.

(** * Properties of the application and its components *)

Lemma dark_is_not_light : js "dark" <> js "light".
Proof. vm_compute. discriminate. Qed.

Section Theme.
Context {S : Type} `{StorageLaws S}.

Lemma toggleTheme_light (a : TodoApp S) :
  app_theme a = js "light" -> app_theme (toggleTheme a) = js "dark".
Proof. intros Ha. unfold toggleTheme. cbn. now rewrite decide_True. Qed.

Lemma toggleTheme_other (a : TodoApp S) :
  app_theme a <> js "light" -> app_theme (toggleTheme a) = js "light".
Proof. intros Ha. unfold toggleTheme. cbn. now rewrite decide_False. Qed.

(** X14. [toggleTheme()] turns the theme 'light' into 'dark' and any
    other theme, 'dark' or not, into 'light'; the theme applied to the
    page and, on a storage service whose writes take effect, the theme
    stored are the new theme.  Toggling twice from 'light' or 'dark'
    gives the theme back.  The tasks and the counter, in the model and
    in the store, are not touched. *)
Theorem toggleTheme_flips_and_saves (a : TodoApp S) :
  let a' := toggleTheme a in
  (app_theme a = js "light" -> app_theme a' = js "dark") /\
  (app_theme a <> js "light" -> app_theme a' = js "light") /\
  (app_theme a = js "light" \/ app_theme a = js "dark" ->
   app_theme (toggleTheme a') = app_theme a) /\
  body_theme a' = app_theme a' /\
  (forall d, st_load K_theme d (storage (app_model a')) = app_theme a') /\
  (forall d, st_load K_items d (storage (app_model a')) =
             st_load K_items d (storage (app_model a))) /\
  (forall d, st_load K_nextId d (storage (app_model a')) =
             st_load K_nextId d (storage (app_model a))) /\
  todos (app_model a') = todos (app_model a) /\
  nextId (app_model a') = nextId (app_model a) /\
  listeners (app_model a') = listeners (app_model a) /\
  app_todos a' = app_todos a.
Proof.
  cbn zeta.
  split; [apply toggleTheme_light |]. split; [apply toggleTheme_other |]. split.
  { intros [Ha | Ha].
    - rewrite toggleTheme_other, Ha; [reflexivity |].
      rewrite (toggleTheme_light a Ha). exact dark_is_not_light.
    - rewrite toggleTheme_light, Ha; [reflexivity |].
      apply toggleTheme_other. rewrite Ha. exact dark_is_not_light. }
  split; [reflexivity |]. split.
  { intros d. unfold toggleTheme. cbn. apply (load_save_same K_theme). }
  split.
  { intros d. unfold toggleTheme. cbn.
    now rewrite (load_save_other K_theme K_items). }
  split.
  { intros d. unfold toggleTheme. cbn.
    now rewrite (load_save_other K_theme K_nextId). }
  repeat split.
Qed.

End Theme.

Lemma toggleTheme_flips_and_saves_witness :
  let a := TodoApp_constructor MockStorage.empty in
  app_theme (toggleTheme a) = js "dark" /\
  app_theme (toggleTheme (toggleTheme a)) = js "light" /\
  app_theme
    (toggleTheme
       (TodoApp_constructor (MockStorage.mk None None (Some (js "blue")))))
  = js "light".
Proof.
  intros a.
  pose proof (toggleTheme_flips_and_saves a) as (Hl & _ & H2 & _).
  pose proof (toggleTheme_flips_and_saves
                (TodoApp_constructor
                   (MockStorage.mk None None (Some (js "blue")))))
    as (_ & Hd & _).
  split; [exact (Hl eq_refl) |].
  split; [exact (H2 (or_introl eq_refl)) |].
  apply Hd. vm_compute. discriminate.
Defined.

Section View.
Context {S : Type} `{StorageOps S}.
Implicit Types (a : TodoApp S) (us : list UserAction).

(** The application's list is the model's, and the application's
    callback is the model's only subscriber. *)
Lemma call_model_follows (op : Op) a :
  mutating op = true ->
  app_todos a = todos (app_model a) ->
  listeners (app_model a) = [app_listener] ->
  app_todos (call_model (exec op) a) = todos (app_model (call_model (exec op) a)) /\
  listeners (app_model (call_model (exec op) a)) = [app_listener].
Proof.
  intros Hop Hview Hsub. unfold call_model, after, trace_of. cbn.
  destruct (exec_shape op (app_model a))
    as [(l & -> & _) | [-> | (ts & n & _ & ->)]].
  - discriminate.
  - cbn. now split.
  - cbn [fst snd]. rewrite calls_commit, Hsub. cbn. now split.
Qed.

Lemma act_follows (u : UserAction) a :
  app_todos a = todos (app_model a) ->
  listeners (app_model a) = [app_listener] ->
  app_todos (act u a) = todos (app_model (act u a)) /\
  listeners (app_model (act u a)) = [app_listener].
Proof.
  intros Hview Hsub. destruct u as [[text | id | id | id text] now | [|] | [|] |];
    cbn [act handleIntent handleClearCompleted handleClearAll].
  - now apply (call_model_follows (OpAddTodo text now)).
  - now apply (call_model_follows (OpToggleComplete id)).
  - now apply (call_model_follows (OpDeleteTodo id)).
  - now apply (call_model_follows (OpUpdateTodo id text)).
  - now apply (call_model_follows OpClearCompleted).
  - now split.
  - now apply (call_model_follows OpClearAll).
  - now split.
  - unfold toggleTheme. cbn. now split.
Qed.

Lemma session_follows (s : S) us :
  let a := session s us in
  app_todos a = todos (app_model a) /\
  listeners (app_model a) = [app_listener].
Proof.
  cbn zeta. unfold session.
  assert (Hstart : app_todos (TodoApp_constructor s) =
                   todos (app_model (TodoApp_constructor s)) /\
                   listeners (app_model (TodoApp_constructor s)) = [app_listener])
    by (split; reflexivity).
  revert Hstart. generalize (TodoApp_constructor s).
  induction us as [|u us IH]; intros a [Hview Hsub]; [now split |].
  cbn [fold_left]. apply IH. now apply act_follows.
Qed.

(** X15. Whatever the user does (add, toggle, delete, update, clear
    with or without confirmation, switch the theme), the list the
    application shows is the task sequence of the model, and the
    application's callback stays the model's only subscriber. *)
Theorem shown_list_is_the_models (s : S) us :
  let a := session s us in
  app_todos a = todos (app_model a) /\
  listeners (app_model a) = [app_listener].
Proof. apply session_follows. Qed.

End View.

Lemma truthy_trim (s : jsstring) : truthy (trim s) = true <-> trim s <> [].
Proof. destruct (trim s); cbn; split; congruence. Qed.

Section Components.
Context {S : Type} `{StorageOps S}.
Implicit Types (a : TodoApp S) (us : list UserAction).

(** X16. Submitting the form.  When the input trims to a non-empty
    string the form dispatches [add-todo] with the input as typed and
    empties its field, and the application, handling the event, appends
    one task whose text is the trimmed input and whose id is the
    counter of the model; the form never dispatches a text the model
    rejects.  When the input is empty or white space nothing is
    dispatched and the field keeps its content. *)
Theorem form_submit_adds_the_trimmed_input (f : TodoForm.t) a (now : jsstring) :
  (trim (TodoForm.inputValue f) <> [] ->
   TodoForm.handleSubmit f =
     (TodoForm.mk [], Some (AddTodo (TodoForm.inputValue f))) /\
   todos (app_model (handleIntent (AddTodo (TodoForm.inputValue f)) now a)) =
     todos (app_model a) ++
     [Todo.mk (nextId (app_model a)) (trim (TodoForm.inputValue f)) false now]) /\
  (trim (TodoForm.inputValue f) = [] -> TodoForm.handleSubmit f = (f, None)).
Proof.
  unfold TodoForm.handleSubmit. split.
  - intros Hin. rewrite (proj2 (truthy_trim _) Hin). split; [reflexivity |].
    cbn [handleIntent]. unfold call_model, after. cbn [app_model].
    now rewrite (addTodo_accepted _ _ _ Hin).
  - intros Hin. now rewrite Hin.
Qed.

(** X17. Saving an edit.  When the edit field trims to a non-empty
    string, [handleSave] leaves edit mode and dispatches [update-todo]
    with the id of the item's task and the text as typed; if the model
    has a task with that id, the application, handling the event, sets
    the text of the first such task to the trimmed text and changes no
    other task.  When the field is empty or white space, the item stays
    in edit mode as it is and dispatches nothing. *)
Theorem item_save_updates_the_task (it : TodoItem.t) a (now : jsstring) :
  (trim (TodoItem.editValue it) <> [] ->
   TodoItem.handleSave it =
     (TodoItem.mk (TodoItem.todo it) false (TodoItem.editValue it),
      Some (UpdateTodo (Todo.id (TodoItem.todo it)) (TodoItem.editValue it))) /\
   ((exists t, In t (todos (app_model a)) /\
               Todo.id t = Todo.id (TodoItem.todo it)) ->
    exists l1 t l2,
      todos (app_model a) = l1 ++ t :: l2 /\
      Forall (fun x => Todo.id x <> Todo.id (TodoItem.todo it)) l1 /\
      Todo.id t = Todo.id (TodoItem.todo it) /\
      todos (app_model
               (handleIntent
                  (UpdateTodo (Todo.id (TodoItem.todo it)) (TodoItem.editValue it))
                  now a)) =
      l1 ++ Todo.mk (Todo.id t) (trim (TodoItem.editValue it))
              (Todo.completed t) (Todo.createdAt t) :: l2)) /\
  (trim (TodoItem.editValue it) = [] -> TodoItem.handleSave it = (it, None)).
Proof.
  unfold TodoItem.handleSave. split.
  - intros Hv. rewrite (proj2 (truthy_trim _) Hv). split; [reflexivity |].
    intros Hin.
    destruct (updateTodo_first_match (app_model a) _ (TodoItem.editValue it)
                Hin Hv) as (l1 & t & l2 & Hl & Hl1 & Ht & Hup & _).
    exists l1, t, l2. repeat split; assumption.
  - intros Hv. now rewrite Hv.
Qed.

(** X18. Opening the editor on a task of the model and saving without
    typing: when the task is the first with its id and its text is
    non-empty and trimmed, the item dispatches an update with the text
    of the task, and the application leaves the task sequence exactly
    as it was. *)
Theorem edit_then_save_keeps_the_list a (l1 l2 : list Todo.t) (t : Todo.t)
    (now : jsstring) :
  todos (app_model a) = l1 ++ t :: l2 ->
  Forall (fun x => Todo.id x <> Todo.id t) l1 ->
  Todo.text t <> [] ->
  trim (Todo.text t) = Todo.text t ->
  let editing := fst (TodoItem.handleEdit (TodoItem.init t)) in
  TodoItem.handleSave editing =
    (TodoItem.mk t false (Todo.text t),
     Some (UpdateTodo (Todo.id t) (Todo.text t))) /\
  todos (app_model (handleIntent (UpdateTodo (Todo.id t) (Todo.text t)) now a)) =
  todos (app_model a).
Proof.
  intros Hl Hl1 Hne Htrim. cbn zeta. split.
  - change (TodoItem.handleSave (TodoItem.mk t true (Todo.text t)) =
            (TodoItem.mk t false (Todo.text t),
             Some (UpdateTodo (Todo.id t) (Todo.text t)))).
    unfold TodoItem.handleSave. cbn [TodoItem.editValue TodoItem.todo].
    rewrite Htrim. now destruct (Todo.text t).
  - cbn [handleIntent]. unfold call_model, after. cbn [app_model].
    assert (Hl1' : Forall (fun x => has_id (Todo.id t) x = false) l1).
    { eapply Forall_impl; [exact Hl1 |]. intros x Hx. now apply has_id_false. }
    assert (Ht : has_id (Todo.id t) t = true) by now apply has_id_true.
    destruct (find_first_match (has_id (Todo.id t)) l1 l2 t Hl1' Ht)
      as [Hf Hup].
    rewrite <- Hl in Hf, Hup.
    rewrite (updateTodo_accepted _ _ _ _ Hf) by now rewrite Htrim.
    cbn. rewrite Hup, Htrim, Hl. unfold Todo.set_text. now destruct t.
Qed.

(** X19. Leaving the editor with Escape: whatever state the item was
    in before the editor was opened and whatever was typed, the item
    keeps its task, leaves edit mode with an empty edit field and
    dispatches nothing.  So it is back in its former state exactly when
    it was not editing and its edit field was empty (a new item, or one
    last left with Cancel); the text a previous Save left in the field
    is cleared.  Enter does what the Save button does, and any other
    key neither changes the item nor dispatches. *)
Theorem escape_discards_the_edit (it : TodoItem.t) (typed : jsstring)
    (key : string) :
  let escaped :=
    TodoItem.handleKeyDown "Escape"
      (TodoItem.input typed (fst (TodoItem.handleEdit it))) in
  escaped = (TodoItem.mk (TodoItem.todo it) false [], None) /\
  (escaped = (it, None) <->
   TodoItem.isEditing it = false /\ TodoItem.editValue it = []) /\
  TodoItem.handleKeyDown "Enter" it = TodoItem.handleSave it /\
  (key <> "Enter"%string -> key <> "Escape"%string ->
   TodoItem.handleKeyDown key it = (it, None)).
Proof.
  cbn zeta. split; [reflexivity |]. split.
  - destruct it as [t editing value]. cbn. split.
    + intros [= <- <-]. now split.
    + intros [-> ->]. reflexivity.
  - split; [reflexivity |].
    intros HnE HnS. unfold TodoItem.handleKeyDown.
    apply String.eqb_neq in HnE, HnS. now rewrite HnE, HnS.
Qed.

(** X20. Deleting from an item.  Declined, [handleDelete] dispatches
    nothing.  Confirmed, it dispatches [delete-todo] with the id of the
    item's task, and after the application has handled the event the
    list it shows holds exactly the tasks shown before whose id is not
    that id. *)
Theorem item_delete_removes_from_the_list (s : S) us (it : TodoItem.t)
    (now : jsstring) :
  let a := session s us in
  let e := DeleteTodo (Todo.id (TodoItem.todo it)) in
  TodoItem.handleDelete false it = (it, None) /\
  TodoItem.handleDelete true it = (it, Some e) /\
  (forall t,
     In t (app_todos (handleIntent e now a)) <->
     In t (app_todos a) /\ Todo.id t <> Todo.id (TodoItem.todo it)).
Proof.
  cbn zeta. split; [reflexivity |]. split; [reflexivity |].
  intros t.
  destruct (session_follows s us) as [Hview Hsub].
  destruct (call_model_follows (OpDeleteTodo (Todo.id (TodoItem.todo it)))
              (session s us) eq_refl Hview Hsub) as [Hview' _].
  cbn [handleIntent]. cbn [exec] in Hview'. rewrite Hview', Hview.
  unfold call_model. cbn [app_model].
  apply deleteTodo_members.
Qed.

End Components.

Lemma form_submit_adds_the_trimmed_input_witness :
  let a := TodoApp_constructor MockStorage.empty in
  let now := js "2024-01-15T10:30:00.000Z" in
  (TodoForm.handleSubmit (TodoForm.mk (js " Buy groceries ")) =
     (TodoForm.mk [], Some (AddTodo (js " Buy groceries "))) /\
   todos (app_model (handleIntent (AddTodo (js " Buy groceries ")) now a)) =
     [Todo.mk 1 (js "Buy groceries") false now]) /\
  TodoForm.handleSubmit (TodoForm.mk (js "   ")) =
    (TodoForm.mk (js "   "), None).
Proof.
  intros a now. split.
  - exact (proj1 (form_submit_adds_the_trimmed_input
                    (TodoForm.mk (js " Buy groceries ")) a now)
             ltac:(vm_compute; discriminate)).
  - exact (proj2 (form_submit_adds_the_trimmed_input
                    (TodoForm.mk (js "   ")) a now)
             ltac:(reflexivity)).
Defined.

Lemma item_save_updates_the_task_witness :
  let t := Todo.mk 1 (js "A") false (js "2024-01-15T10:30:00.000Z") in
  let blank := TodoItem.mk t true (js "  ") in
  let typed := TodoItem.mk t true (js " B ") in
  TodoItem.handleSave typed =
    (TodoItem.mk t false (js " B "), Some (UpdateTodo 1 (js " B "))) /\
  TodoItem.handleSave blank = (blank, None).
Proof.
  intros t blank typed. split.
  - exact (proj1 (proj1 (item_save_updates_the_task typed
                           (TodoApp_constructor MockStorage.empty) [])
                    ltac:(vm_compute; discriminate))).
  - exact (proj2 (item_save_updates_the_task blank
                    (TodoApp_constructor MockStorage.empty) [])
             ltac:(reflexivity)).
Defined.

Lemma edit_then_save_keeps_the_list_witness :
  let now := js "2024-01-15T10:30:00.000Z" in
  let a := session MockStorage.empty [DoIntent (AddTodo (js "Buy milk")) now] in
  let t := Todo.mk 1 (js "Buy milk") false now in
  todos (app_model (handleIntent (UpdateTodo 1 (js "Buy milk")) now a)) =
  todos (app_model a).
Proof.
  intros now a t.
  exact (proj2 (edit_then_save_keeps_the_list a [] [] t now eq_refl
                  (Forall_nil_2 _)
                  ltac:(vm_compute; discriminate) ltac:(reflexivity))).
Defined.

Lemma escape_discards_the_edit_witness :
  let t := Todo.mk 1 (js "A") false [] in
  let saved := fst (TodoItem.handleSave (TodoItem.mk t true (js "A b"))) in
  TodoItem.handleKeyDown "Escape"
    (TodoItem.input (js "typed")
       (fst (TodoItem.handleEdit (TodoItem.init t))))
  = (TodoItem.init t, None) /\
  TodoItem.handleKeyDown "Escape"
    (TodoItem.input (js "typed") (fst (TodoItem.handleEdit saved)))
  <> (saved, None) /\
  TodoItem.handleKeyDown "Tab" saved = (saved, None).
Proof.
  intros t saved.
  pose proof (escape_discards_the_edit (TodoItem.init t) (js "typed") "Tab")
    as (_ & [_ Hback] & _ & _).
  pose proof (escape_discards_the_edit saved (js "typed") "Tab")
    as (_ & [Hkept _] & _ & Hother).
  split; [exact (Hback (conj eq_refl eq_refl)) |].
  split.
  - intros Heq. destruct (Hkept Heq) as [_ Hvalue].
    vm_compute in Hvalue. discriminate.
  - apply Hother; discriminate.
Defined.

Section Rendering.
Context {S : Type} `{StorageOps S}.

(** X21. What the application shows after any session: the total is the
    sum of the active and the completed counts, although the total is
    taken from the application's copy of the list and the two counts
    from the model; Clear Completed is disabled exactly when no task
    shown is completed, and Export and Clear All exactly when no task is
    shown. *)
Theorem shown_figures_add_up (s : S) (us : list UserAction) :
  let a := session s us in
  let v := render_stats a in
  stat_total v = (stat_active v + stat_completed v)%nat /\
  (clear_completed_disabled v = true <->
   forall t, In t (app_todos a) -> Todo.completed t = false) /\
  (clear_all_disabled v = true <-> app_todos a = []) /\
  export_disabled v = clear_all_disabled v.
Proof.
  cbn zeta. destruct (session_follows s us) as [Hview _].
  unfold render_stats. cbn. rewrite Hview.
  unfold activeCount, completedCount.
  split; [symmetry; apply filter_partition_length |].
  split; [| split; [| reflexivity]].
  - rewrite Nat.eqb_eq. generalize (todos (app_model (session s us))).
    intros l. induction l as [|t l IH]; cbn.
    + split; [intros _ t [] | reflexivity].
    + destruct (Todo.completed t) eqn:Hc; cbn.
      * split; [discriminate |]. intros Hall.
        specialize (Hall t (or_introl eq_refl)). congruence.
      * rewrite IH. split.
        -- intros Hall x [<- | Hx]; [exact Hc | now apply Hall].
        -- intros Hall x Hx. apply Hall. now right.
  - rewrite Nat.eqb_eq. now destruct (todos (app_model (session s us))).
Qed.

End Rendering.

Section ImportNeverChanges.
Context {S : Type} `{StorageOps S} {V : Type}.
Variable JSON_parse : jsstring -> option V.
Variable call_member : string -> V -> M S unit.

(** X22. Whatever file is chosen and whatever the user answers, the
    import handler leaves the model as it was, calls neither the storage
    service nor a subscriber, and never announces a successful import:
    it ends with the failure alert, or, when the user declines, with
    the question alone. *)
Theorem import_never_changes_the_model (result : jsstring) (confirmed : bool)
    (m : TodoModel S) :
  let out := handleFileImport_onload JSON_parse call_member result confirmed m in
  snd (fst out) = m /\
  snd out = [] /\
  ~ In (Alert "Tasks imported successfully!") (fst (fst out)) /\
  (confirmed = true -> In (Alert "Import failed: Invalid JSON file.") (fst (fst out))) /\
  (JSON_parse result = None ->
   In (Alert "Import failed: Invalid JSON file.") (fst (fst out))).
Proof.
  cbn zeta. unfold handleFileImport_onload.
  destruct (JSON_parse result) as [v|]; [destruct confirmed |]; cbn;
    (split; [reflexivity |]); (split; [reflexivity |]); split.
  - intros Hin. repeat destruct Hin as [Hin | Hin]; try discriminate.
    contradiction.
  - split; intros _; right; right; now left.
  - intros Hin. repeat destruct Hin as [Hin | Hin]; try discriminate.
    contradiction.
  - split; discriminate.
  - intros Hin. repeat destruct Hin as [Hin | Hin]; try discriminate.
    contradiction.
  - split; intros _; right; now left.
Qed.

End ImportNeverChanges.

Lemma import_never_changes_the_model_witness :
  let m := fst (constructor MockStorage.empty) in
  In (Alert "Import failed: Invalid JSON file.")
    (fst (fst (handleFileImport_onload parse_fragment (fun _ _ => clearAll)
                 (js "[{") false m))) /\
  In (Alert "Import failed: Invalid JSON file.")
    (fst (fst (handleFileImport_onload parse_fragment (fun _ _ => clearAll)
                 (js "[]") true m))).
Proof.
  intros m. split.
  - apply (proj2 (proj2 (proj2 (proj2
             (import_never_changes_the_model parse_fragment
                (fun _ _ => clearAll) (js "[{") false m))))).
    vm_compute. reflexivity.
  - apply (proj1 (proj2 (proj2 (proj2
             (import_never_changes_the_model parse_fragment
                (fun _ _ => clearAll) (js "[]") true m))))).
    reflexivity.
Defined.
